(** * PostScraper: a shallow embedding of [src/scraper.js]

    The content script of the extension is one class, [PostScraper].  Its
    fields become the record [Scraper]; the part of the browser it talks to
    (clock, timers, mutation observers, document, saved files) becomes the
    record [World].  Every method is a function on worlds, exceptions are
    written out with [option], and the event loop is the function [step]. *)

From Stdlib Require Import Ascii String DecimalString ZArith Lia.
From stdpp Require Import gmap strings list.

Local Open Scope string_scope.
Local Open Scope Z_scope.

(** ** JavaScript strings *)

Module Js.

Definition TAB : ascii := "009"%char.
Definition LF : ascii := "010"%char.
Definition CR : ascii := "013"%char.
Definition DQUOTE : ascii := "034"%char.

Definition chr (c : ascii) : string := String c EmptyString.

(** [s.indexOf(needle)]: position of the first occurrence, [-1] when there
    is none. *)
Fixpoint indexOf_from (needle s : string) (i : Z) : Z :=
  if String.prefix needle s then i
  else match s with
       | EmptyString => -1
       | String _ s' => indexOf_from needle s' (i + 1)
       end.

Definition indexOf (needle s : string) : Z := indexOf_from needle s 0.

(** [s.includes(needle)] *)
Fixpoint includes (needle s : string) : bool :=
  if String.prefix needle s then true
  else match s with
       | EmptyString => false
       | String _ s' => includes needle s'
       end.

(** [s.replace(/c/g, rep)] for a one-character pattern. *)
Fixpoint replaceAll (c : ascii) (rep s : string) : string :=
  match s with
  | EmptyString => EmptyString
  | String a s' =>
      if Ascii.eqb a c then rep ++ replaceAll c rep s'
      else String a (replaceAll c rep s')
  end.

(** [arr.join(sep)] *)
Definition join (sep : string) (l : list string) : string := String.concat sep l.

(** [String(n)] for a non-negative integer. *)
Definition String_of_nat (n : nat) : string :=
  NilEmpty.string_of_uint (Nat.to_uint n).

(** The white space and line terminators of one byte: space, tab, line
    feed, vertical tab, form feed, carriage return. *)
Definition is_space (c : ascii) : bool :=
  let n := nat_of_ascii c in
  (Nat.eqb n 32 || (Nat.leb 9 n && Nat.leb n 13))%bool.

(** A string is kept as the bytes of its UTF-8 encoding.  The white space
    of two bytes is U+00A0. *)
Definition is_space2 (c1 c2 : ascii) : bool :=
  (Nat.eqb (nat_of_ascii c1) 194 && Nat.eqb (nat_of_ascii c2) 160)%bool.

(** The white space and line terminators of three bytes: U+1680,
    U+2000 to U+200A, U+2028, U+2029, U+202F, U+205F, U+3000, U+FEFF. *)
Definition is_space3 (c1 c2 c3 : ascii) : bool :=
  let a := nat_of_ascii c1 in
  let b := nat_of_ascii c2 in
  let c := nat_of_ascii c3 in
  ((Nat.eqb a 225 && Nat.eqb b 154 && Nat.eqb c 128)
   || (Nat.eqb a 226 && Nat.eqb b 128
       && ((Nat.leb 128 c && Nat.leb c 138) || Nat.eqb c 168 || Nat.eqb c 169
           || Nat.eqb c 175))
   || (Nat.eqb a 226 && Nat.eqb b 129 && Nat.eqb c 159)
   || (Nat.eqb a 227 && Nat.eqb b 128 && Nat.eqb c 128)
   || (Nat.eqb a 239 && Nat.eqb b 187 && Nat.eqb c 191))%bool.

(** Drop the white space a list of bytes begins with; [two] and [three]
    recognise the white space of two and three bytes. *)
Fixpoint strip (two : ascii -> ascii -> bool) (three : ascii -> ascii -> ascii -> bool)
  (l : list ascii) : list ascii :=
  match l with
  | [] => []
  | c1 :: r1 =>
      if is_space c1 then strip two three r1
      else match r1 with
           | c2 :: r2 =>
               if two c1 c2 then strip two three r2
               else match r2 with
                    | c3 :: r3 => if three c1 c2 c3 then strip two three r3 else l
                    | [] => l
                    end
           | [] => l
           end
  end.

Definition strip_start : list ascii -> list ascii := strip is_space2 is_space3.

(** The same on a reversed list, where the bytes of a character come last
    byte first. *)
Definition strip_reversed : list ascii -> list ascii :=
  strip (fun c1 c2 => is_space2 c2 c1) (fun c1 c2 c3 => is_space3 c3 c2 c1).

Definition trim_bytes (l : list ascii) : list ascii :=
  rev (strip_reversed (rev (strip_start l))).

(** [s.trimStart()] *)
Definition trimStart (s : string) : string :=
  string_of_list_ascii (strip_start (list_ascii_of_string s)).

(** [s.trimEnd()] *)
Definition trimEnd (s : string) : string :=
  string_of_list_ascii (rev (strip_reversed (rev (list_ascii_of_string s)))).

(** [s.trim()] *)
Definition trim (s : string) : string := trimEnd (trimStart s).

(** The values the export encoder is handed. *)
Inductive value : Type :=
  | Null
  | Undefined
  | Str (s : string)
  | Num (n : nat).

(** [String(v)] *)
Definition String_of (v : value) : string :=
  match v with
  | Null => "null"
  | Undefined => "undefined"
  | Str s => s
  | Num n => String_of_nat n
  end.

(** [o || null] turns an optional string into a value. *)
Definition of_option (o : option string) : value :=
  match o with
  | Some s => Str s
  | None => Null
  end.

(** Truthiness of a string: only the empty string is falsy. *)
Definition truthy (s : string) : bool :=
  match s with
  | EmptyString => false
  | _ => true
  end.

End Js.

(** ** Records of the store *)

Record Link : Type := { url : string; link_text : string }.
Record Image : Type := { src : string; alt : string }.

(** The object built by [extractPostData]; [metadata] is always the empty
    object and is left out. *)
Record PostData : Type := {
  timestamp : string;
  id : option string;
  text : string;
  links : list Link;
  images : list Image
}.

(** ** Export encoder *)

(** [escapeCSV(value)] *)
Definition escapeCSV (v : Js.value) : string :=
  match v with
  | Js.Null | Js.Undefined => EmptyString
  | _ =>
      let str := Js.String_of v in
      if (Js.includes "," str || Js.includes (Js.chr Js.DQUOTE) str
          || Js.includes (Js.chr Js.LF) str || Js.includes (Js.chr Js.CR) str)%bool
      then Js.chr Js.DQUOTE
           ++ Js.replaceAll Js.DQUOTE (String Js.DQUOTE (Js.chr Js.DQUOTE)) str
           ++ Js.chr Js.DQUOTE
      else str
  end.

Definition headers : list string :=
  ["Timestamp"; "Post ID"; "Post Text"; "Links Count"; "Links URLs";
   "Images Count"; "Image URLs"].

(** The array [row] built for one post inside [convertToCSV]. *)
Definition csv_row (post : PostData) : list string :=
  [ escapeCSV (Js.Str (timestamp post));
    escapeCSV (Js.of_option (id post));
    escapeCSV (Js.Str (text post));
    escapeCSV (Js.Num (length (links post)));
    escapeCSV (Js.Str (Js.join "; " (map url (links post))));
    escapeCSV (Js.Num (length (images post)));
    escapeCSV (Js.Str (Js.join "; " (map src (images post)))) ].

Definition csv_line (cells : list string) : string :=
  Js.join (Js.chr Js.TAB) cells ++ Js.chr Js.LF.

(** [convertToCSV(data)] *)
Definition convertToCSV (data : list PostData) : string :=
  match data with
  | [] => "No data to export"
  | _ => fold_left (fun csv post => csv ++ csv_line (csv_row post)) data
                   (csv_line headers)
  end.

(** ** The page *)

#[local] Set Warnings "-register-all".

(** A DOM node.  [ref] stands for the identity of the JavaScript object:
    the [WeakSet] and the [Set] of nodes used by the script compare nodes by
    identity, which is comparison of [ref]s here. *)
Inductive Node : Type :=
  | Element (ref : positive) (tagName : string)
            (attributes : list (string * string)) (childNodes : list Node)
  | Text (ref : positive) (data : string).

Definition node_ref (n : Node) : positive :=
  match n with
  | Element r _ _ _ => r
  | Text r _ => r
  end.

Definition ELEMENT_NODE : nat := 1.
Definition TEXT_NODE : nat := 3.

Definition nodeType (n : Node) : nat :=
  match n with
  | Element _ _ _ _ => ELEMENT_NODE
  | Text _ _ => TEXT_NODE
  end.

Fixpoint assoc (k : string) (l : list (string * string)) : option string :=
  match l with
  | [] => None
  | (k', v) :: l' => if String.eqb k k' then Some v else assoc k l'
  end.

(** [n.getAttribute(name)] *)
Definition getAttribute (name : string) (n : Node) : option string :=
  match n with
  | Element _ _ attrs _ => assoc name attrs
  | Text _ _ => None
  end.

(** A reflected string attribute such as [n.id] or [img.alt]: the empty
    string when the attribute is missing. *)
Definition reflected (name : string) (n : Node) : string :=
  default EmptyString (getAttribute name n).

(** All descendants of a node in document order, the node itself excluded. *)
Fixpoint descendants (n : Node) : list Node :=
  match n with
  | Element _ _ _ cs =>
      (fix go (l : list Node) : list Node :=
         match l with
         | [] => []
         | c :: l' => c :: descendants c ++ go l'
         end) cs
  | Text _ _ => []
  end.

(** What the script needs from the browser and cannot compute itself:
    the selector engine, rendered text, URL resolution and date printing.
    [innerText] is [None] on elements that do not have the property (only
    HTML elements do), where reading [.innerText.trim()] throws.
    [hasStyle] tells whether the node has a [style] object (HTML, SVG and
    MathML elements do); where it has none, assigning [.style.border]
    throws. *)
Class Browser : Type := {
  matches : string -> Node -> bool;
  selector_valid : string -> bool;
  innerText : Node -> option string;
  hasStyle : Node -> bool;
  resolveURL : string -> string;
  toISOString : Z -> string
}.

(** One record of a mutation batch; only [addedNodes] is read. *)
Record MutationRecord : Type := { addedNodes : list Node }.

Inductive Callback : Type :=
  | HandleMutations (mutations : list MutationRecord)
  | RetryPost (post : Node).

Record Timer : Type := {
  timer_id : positive;
  due : Z;
  callback : Callback
}.

(** ** The scraper object and its world *)

Record Config : Type := {
  containerSelector : string;
  contentSelector : string;
  debounceDelay : Z;
  maxRetries : nat;
  retryDelay : Z
}.

Record Scraper : Type := {
  config : Config;
  processed : gset positive;
  processedIds : gset string;
  collectedData : list PostData;
  debounceTimer : option positive;
  retryCount : nat;
  observer : option positive;
  isActive : bool
}.

(** The browser side.  [handler_calls] is a log kept for the proofs only:
    the argument of every call of [handleMutations], oldest first. *)
Record World : Type := {
  scraper : Scraper;
  now : Z;
  timers : list Timer;
  next_timer : positive;
  observing : list positive;
  next_observer : positive;
  document : Node;
  borders : gmap positive string;
  downloads : list (string * string);
  handler_calls : list (list MutationRecord)
}.

Definition set_contentSelector (v : string) (c : Config) : Config :=
  {| containerSelector := containerSelector c; contentSelector := v;
     debounceDelay := debounceDelay c; maxRetries := maxRetries c;
     retryDelay := retryDelay c |}.

Definition set_config (v : Config) (s : Scraper) : Scraper :=
  {| config := v; processed := processed s; processedIds := processedIds s;
     collectedData := collectedData s; debounceTimer := debounceTimer s;
     retryCount := retryCount s; observer := observer s; isActive := isActive s |}.

Definition set_processed (v : gset positive) (s : Scraper) : Scraper :=
  {| config := config s; processed := v; processedIds := processedIds s;
     collectedData := collectedData s; debounceTimer := debounceTimer s;
     retryCount := retryCount s; observer := observer s; isActive := isActive s |}.

Definition set_processedIds (v : gset string) (s : Scraper) : Scraper :=
  {| config := config s; processed := processed s; processedIds := v;
     collectedData := collectedData s; debounceTimer := debounceTimer s;
     retryCount := retryCount s; observer := observer s; isActive := isActive s |}.

Definition set_collectedData (v : list PostData) (s : Scraper) : Scraper :=
  {| config := config s; processed := processed s; processedIds := processedIds s;
     collectedData := v; debounceTimer := debounceTimer s;
     retryCount := retryCount s; observer := observer s; isActive := isActive s |}.

Definition set_debounceTimer (v : option positive) (s : Scraper) : Scraper :=
  {| config := config s; processed := processed s; processedIds := processedIds s;
     collectedData := collectedData s; debounceTimer := v;
     retryCount := retryCount s; observer := observer s; isActive := isActive s |}.

Definition set_retryCount (v : nat) (s : Scraper) : Scraper :=
  {| config := config s; processed := processed s; processedIds := processedIds s;
     collectedData := collectedData s; debounceTimer := debounceTimer s;
     retryCount := v; observer := observer s; isActive := isActive s |}.

Definition set_observer (v : option positive) (s : Scraper) : Scraper :=
  {| config := config s; processed := processed s; processedIds := processedIds s;
     collectedData := collectedData s; debounceTimer := debounceTimer s;
     retryCount := retryCount s; observer := v; isActive := isActive s |}.

Definition set_isActive (v : bool) (s : Scraper) : Scraper :=
  {| config := config s; processed := processed s; processedIds := processedIds s;
     collectedData := collectedData s; debounceTimer := debounceTimer s;
     retryCount := retryCount s; observer := observer s; isActive := v |}.

(** [this.<field> = ...]: an update of the scraper inside its world. *)
Definition on_scraper (f : Scraper -> Scraper) (w : World) : World :=
  {| scraper := f (scraper w); now := now w; timers := timers w;
     next_timer := next_timer w; observing := observing w;
     next_observer := next_observer w; document := document w;
     borders := borders w; downloads := downloads w;
     handler_calls := handler_calls w |}.

Definition set_timers (v : list Timer) (n : positive) (w : World) : World :=
  {| scraper := scraper w; now := now w; timers := v;
     next_timer := n; observing := observing w;
     next_observer := next_observer w; document := document w;
     borders := borders w; downloads := downloads w;
     handler_calls := handler_calls w |}.

Definition set_observing (v : list positive) (n : positive) (w : World) : World :=
  {| scraper := scraper w; now := now w; timers := timers w;
     next_timer := next_timer w; observing := v;
     next_observer := n; document := document w;
     borders := borders w; downloads := downloads w;
     handler_calls := handler_calls w |}.

Definition set_now (v : Z) (w : World) : World :=
  {| scraper := scraper w; now := v; timers := timers w;
     next_timer := next_timer w; observing := observing w;
     next_observer := next_observer w; document := document w;
     borders := borders w; downloads := downloads w;
     handler_calls := handler_calls w |}.

Definition set_document (v : Node) (w : World) : World :=
  {| scraper := scraper w; now := now w; timers := timers w;
     next_timer := next_timer w; observing := observing w;
     next_observer := next_observer w; document := v;
     borders := borders w; downloads := downloads w;
     handler_calls := handler_calls w |}.

Definition set_borders (v : gmap positive string) (w : World) : World :=
  {| scraper := scraper w; now := now w; timers := timers w;
     next_timer := next_timer w; observing := observing w;
     next_observer := next_observer w; document := document w;
     borders := v; downloads := downloads w;
     handler_calls := handler_calls w |}.

Definition set_downloads (v : list (string * string)) (w : World) : World :=
  {| scraper := scraper w; now := now w; timers := timers w;
     next_timer := next_timer w; observing := observing w;
     next_observer := next_observer w; document := document w;
     borders := borders w; downloads := v;
     handler_calls := handler_calls w |}.

Definition set_handler_calls (v : list (list MutationRecord)) (w : World) : World :=
  {| scraper := scraper w; now := now w; timers := timers w;
     next_timer := next_timer w; observing := observing w;
     next_observer := next_observer w; document := document w;
     borders := borders w; downloads := downloads w;
     handler_calls := v |}.

(** ** Timers and observers of the browser *)

(** [setTimeout(cb, delay)]: a fresh handle, the callback queued for
    [now + delay]. *)
Definition setTimeout (cb : Callback) (delay : Z) (w : World) : positive * World :=
  let h := next_timer w in
  (h, set_timers (timers w ++ [{| timer_id := h; due := now w + Z.max 0 delay;
                                  callback := cb |}])
                 (Pos.succ h) w).

Definition drop_timer (h : positive) (l : list Timer) : list Timer :=
  List.filter (fun t => negb (Pos.eqb (timer_id t) h)) l.

(** [clearTimeout(h)]; [h] may be [null] or a handle that already fired. *)
Definition clearTimeout (h : option positive) (w : World) : World :=
  match h with
  | Some i => set_timers (drop_timer i (timers w)) (next_timer w) w
  | None => w
  end.

(** [observer.disconnect()] *)
Definition disconnect (o : positive) (w : World) : World :=
  set_observing (List.filter (fun o' => negb (Pos.eqb o' o)) (observing w))
                (next_observer w) w.

(** ** The methods of [PostScraper] *)

Definition MARKER : string := ".update-components-header__image".
Definition RED : string := "5px solid red".
Definition GREEN : string := "5px solid green".

(** The answer of the two guards that open [processPost]. *)
Inductive Verdict : Type :=
  | SeenNode
  | SeenId
  | Fresh.

(** [JSON] shape of the replies of [sendResponse]. *)
Record Response : Type := {
  success : bool;
  message : option string;
  count : option nat
}.

(** [request.action] with the payload that the action reads;
    [selector] is [None] when the request carries no such field. *)
Inductive Request : Type :=
  | StartScraper (selector : option string)
  | StopScraper
  | DownloadData
  | GetDataCount
  | CleanData
  | OtherAction (action : string).

(** What can happen to the page, one event-loop task each. *)
Inductive Event : Type :=
  | Message (request : Request)
  | Resume
  | Mutations (batch : list MutationRecord)
  | Tick (dt : Z)
  | Fire (h : positive)
  | DomChange (root : Node).

Section Methods.

Context {B : Browser}.

(** The elements below [n] that match a selector, as [querySelectorAll]
    lists them for a selector that parses. *)
Definition select (sel : string) (n : Node) : list Node :=
  List.filter (fun d => Nat.eqb (nodeType d) ELEMENT_NODE && matches sel d)
              (descendants n).

(** [n.querySelectorAll(sel)]; [None] is the [SyntaxError] thrown for a
    selector that does not parse. *)
Definition querySelectorAll (sel : string) (n : Node) : option (list Node) :=
  if selector_valid sel then Some (select sel n) else None.

(** [n.querySelector(sel)] *)
Definition querySelector (sel : string) (n : Node) : option (option Node) :=
  head <$> querySelectorAll sel n.

(** [document.querySelectorAll(sel)]: the root element counts too. *)
Definition document_querySelectorAll (sel : string) (root : Node)
  : option (list Node) :=
  if selector_valid sel
  then Some (List.filter
               (fun d => Nat.eqb (nodeType d) ELEMENT_NODE && matches sel d)
               (root :: descendants root))
  else None.

(** [a.href], [img.src] *)
Definition url_attribute (name : string) (n : Node) : string :=
  match getAttribute name n with
  | Some v => resolveURL v
  | None => EmptyString
  end.

(** [n.innerText.trim()]; [None] is the [TypeError] on a missing
    [innerText]. *)
Definition trimmed_text (n : Node) : option string :=
  Js.trim <$> innerText n.

Fixpoint collect_links (l : list Node) : option (list Link) :=
  match l with
  | [] => Some []
  | a :: l' =>
      t ← trimmed_text a;
      r ← collect_links l';
      Some ({| url := url_attribute "href" a; link_text := t |} :: r)
  end.

(** [post.id || post.getAttribute('data-id') || null] *)
Definition record_id (post : Node) : option string :=
  let i := reflected "id" post in
  if Js.truthy i then Some i
  else match getAttribute "data-id" post with
       | Some d => if Js.truthy d then Some d else None
       | None => None
       end.

(** [extractPostData(post)]; [None] when it throws.  The fixed selectors
    ['a'] and ['img'] always parse. *)
Definition extractPostData (post : Node) (w : World) : option PostData :=
  contentElement ← querySelector (contentSelector (config (scraper w))) post;
  postText ← trimmed_text (default post contentElement);
  ls ← collect_links (select "a" post);
  Some {| timestamp := toISOString (now w);
          id := record_id post;
          text := postText;
          links := ls;
          images := map (fun img => {| src := url_attribute "src" img;
                                       alt := reflected "alt" img |})
                        (select "img" post) |}.

(** The guards of [processPost]: identity first, then the [id] attribute. *)
Definition dedup (post : Node) (s : Scraper) : Verdict :=
  if bool_decide (node_ref post ∈ processed s) then SeenNode
  else
    let postId := reflected "id" post in
    if Js.truthy postId && bool_decide (postId ∈ processedIds s) then SeenId
    else Fresh.

(** The [catch] block of [processPost]. *)
Definition retry_later (post : Node) (w : World) : World :=
  let s := scraper w in
  if (retryCount s <? maxRetries (config s))%nat then
    let w1 := on_scraper (set_retryCount (S (retryCount s))) w in
    snd (setTimeout (RetryPost post) (retryDelay (config s)) w1)
  else w.

Definition set_border (post : Node) (v : string) (w : World) : World :=
  set_borders (<[node_ref post := v]> (borders w)) w.

(** [post.style.border = v]; [None] is the [TypeError] thrown when the
    node has no [style]. *)
Definition assign_border (post : Node) (v : string) (w : World) : option World :=
  if hasStyle post then Some (set_border post v w) else None.

(** [processPost(post)] *)
Definition processPost (post : Node) (w : World) : World :=
  match dedup post (scraper w) with
  | SeenNode | SeenId => w
  | Fresh =>
      let postId := reflected "id" post in
      let w1 := on_scraper
                  (fun s => set_processed ({[node_ref post]} ∪ processed s) s) w in
      let w2 := if Js.truthy postId
                then on_scraper
                       (fun s => set_processedIds ({[postId]} ∪ processedIds s) s) w1
                else w1 in
      match select MARKER post with
      | _ :: _ =>
          match assign_border post RED w2 with
          | Some w3 => w3
          | None => retry_later post w2
          end
      | [] =>
          match assign_border post GREEN w2 with
          | Some w3 =>
              match extractPostData post w3 with
              | Some postData =>
                  on_scraper (set_retryCount 0)
                    (on_scraper
                       (fun s => set_collectedData (collectedData s ++ [postData]) s) w3)
              | None => retry_later post w3
              end
          | None => retry_later post w2
          end
      end
  end.

Definition processPosts (posts : list Node) (w : World) : World :=
  fold_left (fun w' post => processPost post w') posts w.

(** [processExistingPosts()] *)
Definition processExistingPosts (w : World) : World :=
  match document_querySelectorAll (containerSelector (config (scraper w)))
                                  (document w) with
  | Some existingPosts => processPosts existingPosts w
  | None => w
  end.

(** [newPosts.add(n)] on a [Set] kept in insertion order. *)
Definition set_add (n : Node) (l : list Node) : list Node :=
  if existsb (fun m => Pos.eqb (node_ref m) (node_ref n)) l then l else l ++ [n].

(** The body of the inner [forEach] of [handleMutations]. *)
Definition add_matches (sel : string) (acc : list Node) (node : Node) : list Node :=
  if Nat.eqb (nodeType node) ELEMENT_NODE then
    let acc1 := if matches sel node then set_add node acc else acc in
    fold_left (fun a post => set_add post a) (select sel node) acc1
  else acc.

(** The set [newPosts] that [handleMutations] builds from its argument. *)
Definition newPosts (sel : string) (mutations : list MutationRecord) : list Node :=
  fold_left (fun acc m => fold_left (add_matches sel) (addedNodes m) acc)
            mutations [].

(** [handleMutations(mutations)].  With a container selector that does not
    parse, [matches] throws before any post is processed. *)
Definition handleMutations (mutations : list MutationRecord) (w : World) : World :=
  let w0 := set_handler_calls (handler_calls w ++ [mutations]) w in
  let sel := containerSelector (config (scraper w)) in
  if selector_valid sel then processPosts (newPosts sel mutations) w0 else w0.

(** [debouncedMutationHandler(mutations)] *)
Definition debouncedMutationHandler (mutations : list MutationRecord) (w : World)
  : World :=
  let w1 := clearTimeout (debounceTimer (scraper w)) w in
  let '(h, w2) := setTimeout (HandleMutations mutations)
                             (debounceDelay (config (scraper w1))) w1 in
  on_scraper (set_debounceTimer (Some h)) w2.

(** [startScraper()] *)
Definition startScraper (w : World) : World :=
  if isActive (scraper w) then w
  else
    let w1 := on_scraper (set_isActive true) w in
    let w2 := processExistingPosts w1 in
    let o := next_observer w2 in
    let w3 := on_scraper (set_observer (Some o)) w2 in
    set_observing (observing w3 ++ [o]) (Pos.succ o) w3.

(** [stopScraper()] *)
Definition stopScraper (w : World) : World :=
  if negb (isActive (scraper w)) then w
  else
    let w1 := on_scraper (set_isActive false) w in
    let w2 := match observer (scraper w1) with
              | Some o => on_scraper (set_observer None) (disconnect o w1)
              | None => w1
              end in
    match debounceTimer (scraper w2) with
    | Some h => on_scraper (set_debounceTimer None) (clearTimeout (Some h) w2)
    | None => w2
    end.

(** [downloadCSV(csvContent)] with the default file name. *)
Definition downloadCSV (csvContent : string) (w : World) : World :=
  let stamp := Js.replaceAll ":" "-" (Js.replaceAll "." "-" (toISOString (now w))) in
  set_downloads (downloads w ++ [("posts_export_" ++ stamp ++ ".csv", csvContent)]) w.

(** [downloadData()] *)
Definition downloadData (w : World) : World * bool :=
  match collectedData (scraper w) with
  | [] => (w, false)
  | data => (downloadCSV (convertToCSV data) w, true)
  end.

(** [cleanData()] *)
Definition cleanData (w : World) : World * bool :=
  (on_scraper (set_collectedData []) w, true).

Definition data_count (w : World) : option nat :=
  Some (length (collectedData (scraper w))).

(** [this.config.contentSelector = v] *)
Definition assign_contentSelector (v : string) (w : World) : World :=
  on_scraper (fun s => set_config (set_contentSelector v (config s)) s) w.

Definition STARTED : Response :=
  {| success := true; message := Some "Scraper started"; count := None |}.
Definition INVALID : Response :=
  {| success := false; message := Some "Invalid selector"; count := None |}.

(** [handleMessage(request, sender, sendResponse)]: the new world and the
    reply passed to [sendResponse]; no reply when reading
    [request.selector.indexOf] throws. *)
Definition handleMessage (request : Request) (w : World) : World * option Response :=
  match request with
  | StartScraper None => (w, None)
  | StartScraper (Some selector) =>
      if Js.indexOf "." selector =? -1 then
        (startScraper (assign_contentSelector ("." ++ selector) w), Some STARTED)
      else if Js.indexOf "." selector =? 0 then
        (startScraper (assign_contentSelector selector w), Some STARTED)
      else
        (w, Some INVALID)
  | StopScraper =>
      (stopScraper w,
       Some {| success := true; message := Some "Scraper stopped"; count := None |})
  | DownloadData =>
      let '(w1, downloaded) := downloadData w in
      (w1, Some {| success := downloaded; message := None; count := data_count w1 |})
  | GetDataCount =>
      (w, Some {| success := true; message := None; count := data_count w |})
  | CleanData =>
      let '(w1, ok) := cleanData w in
      (w1, Some {| success := ok; message := None; count := data_count w1 |})
  | OtherAction _ =>
      (w, Some {| success := false; message := Some "Undefined action"; count := None |})
  end.

(** ** The event loop *)

Definition run_callback (cb : Callback) (w : World) : World :=
  match cb with
  | HandleMutations mutations => handleMutations mutations w
  | RetryPost post => processPost post w
  end.

Definition find_timer (h : positive) (l : list Timer) : option Timer :=
  List.find (fun t => Pos.eqb (timer_id t) h) l.

(** One task of the event loop.  A timer can only fire once it is due; a
    mutation batch reaches the callback of every connected observer. *)
Definition step (e : Event) (w : World) : World :=
  match e with
  | Message request => fst (handleMessage request w)
  | Resume => startScraper w
  | Mutations batch =>
      fold_left (fun w' _ => debouncedMutationHandler batch w') (observing w) w
  | Tick dt => if 0 <=? dt then set_now (now w + dt) w else w
  | Fire h =>
      match find_timer h (timers w) with
      | Some t =>
          if due t <=? now w
          then run_callback (callback t)
                            (set_timers (drop_timer h (timers w)) (next_timer w) w)
          else w
      | None => w
      end
  | DomChange root => set_document root w
  end.

Definition run (es : list Event) (w : World) : World :=
  fold_left (fun w' e => step e w') es w.

End Methods.

(** The state built by the constructor of [PostScraper]. *)
Definition CONTAINER : string :=
  "[role=" ++ Js.chr Js.DQUOTE ++ "article" ++ Js.chr Js.DQUOTE ++ "]".

Definition initial_config : Config :=
  {| containerSelector := CONTAINER; contentSelector := EmptyString;
     debounceDelay := 100; maxRetries := 3; retryDelay := 1000 |}.

Definition initial_scraper : Scraper :=
  {| config := initial_config; processed := ∅; processedIds := ∅;
     collectedData := []; debounceTimer := None; retryCount := 0;
     observer := None; isActive := false |}.

Definition initial_world (root : Node) (t0 : Z) : World :=
  {| scraper := initial_scraper; now := t0; timers := []; next_timer := 1%positive;
     observing := []; next_observer := 1%positive; document := root;
     borders := ∅; downloads := []; handler_calls := [] |}.

(** ** Reading an export back *)

(** Whether a reader that started in state [q] (inside a quoted field or
    not) is inside a quoted field after [s]. *)
Fixpoint in_quotes (q : bool) (s : string) : bool :=
  match s with
  | EmptyString => q
  | String c s' => in_quotes (if Ascii.eqb c Js.DQUOTE then negb q else q) s'
  end.

(** Number of record lines a delimited-text reader sees in [s]: line feeds
    outside quoted fields. *)
Fixpoint record_lines (q : bool) (s : string) : nat :=
  match s with
  | EmptyString => 0
  | String c s' =>
      if Ascii.eqb c Js.DQUOTE then record_lines (negb q) s'
      else if Ascii.eqb c Js.LF && negb q then S (record_lines q s')
      else record_lines q s'
  end.

(** Number of fields of the first line: tabs outside quoted fields. *)
Fixpoint columns (q : bool) (s : string) : nat :=
  match s with
  | EmptyString => 1
  | String c s' =>
      if Ascii.eqb c Js.DQUOTE then columns (negb q) s'
      else if Ascii.eqb c Js.LF && negb q then 1
      else if Ascii.eqb c Js.TAB && negb q then S (columns q s')
      else columns q s'
  end.

(** The fields of the first line as a reader splits them: at the tabs
    outside quoted fields, up to the first line feed outside quotes; the
    quotes are kept. *)
Fixpoint fields_from (q : bool) (cur s : string) : list string :=
  match s with
  | EmptyString => [cur]
  | String c s' =>
      if Ascii.eqb c Js.DQUOTE then fields_from (negb q) (cur ++ Js.chr c) s'
      else if Ascii.eqb c Js.LF && negb q then [cur]
      else if Ascii.eqb c Js.TAB && negb q then cur :: fields_from q EmptyString s'
      else fields_from q (cur ++ Js.chr c) s'
  end.

Definition fields (s : string) : list string := fields_from false EmptyString s.

(** The texts a post is exported with, in the order of the header. *)
Definition exported_texts (post : PostData) : list string :=
  [ timestamp post;
    default EmptyString (id post);
    text post;
    Js.String_of_nat (length (links post));
    Js.join "; " (map url (links post));
    Js.String_of_nat (length (images post));
    Js.join "; " (map src (images post)) ].

(** ** A small page to run the script on *)

Module Sample.

(** The white-space separated tokens of a [class] attribute. *)
Fixpoint tokens (s cur : string) : list string :=
  match s with
  | EmptyString => [cur]
  | String c s' =>
      if Ascii.eqb c " " then cur :: tokens s' EmptyString else tokens s' (cur ++ Js.chr c)
  end.

Definition has_class (cls : string) (n : Node) : bool :=
  existsb (String.eqb cls) (tokens (reflected "class" n) EmptyString).

Fixpoint textContent (n : Node) : string :=
  match n with
  | Text _ d => d
  | Element _ _ _ cs =>
      (fix go (l : list Node) : string :=
         match l with
         | [] => EmptyString
         | c :: l' => textContent c ++ go l'
         end) cs
  end.

(** A selector engine for class selectors, tag names and the container
    selector; [svg] elements have no [innerText]; URLs are absolute
    already; an instant prints as its number of milliseconds. *)
Definition engine : Browser :=
  {| matches sel n :=
       match n with
       | Text _ _ => false
       | Element _ tag attrs _ =>
           match sel with
           | String "." cls => has_class cls n
           | _ => if String.eqb sel CONTAINER
                  then bool_decide (assoc "role" attrs = Some "article")
                  else String.eqb sel tag
           end
       end;
     selector_valid sel :=
       match sel with
       | EmptyString | String "." EmptyString => false
       | _ => true
       end;
     innerText n :=
       match n with
       | Text _ _ => None
       | Element _ tag _ _ =>
           if String.eqb tag "svg" then None else Some (textContent n)
       end;
     hasStyle n :=
       match n with
       | Text _ _ => false
       | Element _ tag _ _ => negb (String.eqb tag "item")
       end;
     resolveURL u := u;
     toISOString t := Js.String_of_nat (Z.to_nat t) |}.

(** A post container: [<div role=article ...><p class=txt>words</p></div>]. *)
Definition post (r : positive) (attrs : list (string * string)) (words : string)
  : Node :=
  Element r "div" (("role", "article") :: attrs)
    [Element (r + 1) "p" [("class", "txt")] [Text (r + 2) words]].

(** A shared post: the container holds the marker element. *)
Definition repost (r : positive) (attrs : list (string * string)) : Node :=
  Element r "div" (("role", "article") :: attrs)
    [Element (r + 1) "img" [("class", "update-components-header__image")] []].

Definition body : Node := Element 1 "body" [] [].

(** The page after the widget sent [startScraper] with selector [txt]. *)
Definition started : World :=
  run (B := engine) [Message (StartScraper (Some "txt"))] (initial_world body 0).

Definition batch (nodes : list Node) : list MutationRecord :=
  [{| addedNodes := nodes |}].

(** Two posts without [id] that carry the same [data-id]. *)
Definition twinA : Node := post 10 [("data-id", "p1")] "first".
Definition twinB : Node := post 20 [("data-id", "p1")] "second".

(** Two posts with the same [id] attribute. *)
Definition sameA : Node := post 30 [("id", "x")] "one".
Definition sameB : Node := post 40 [("id", "x")] "two".

Definition postA : Node := post 50 [("id", "a")] "alpha".
Definition postB : Node := post 60 [("id", "b")] "beta".

Definition shared : Node := repost 70 [("id", "s")].

End Sample.

(** ** Vocabulary of the statements *)

(** A piece of text that a reader enters and leaves outside quotes and in
    which it sees no end of record. *)
Definition closed_text (s : string) : Prop :=
  in_quotes false s = false ∧ record_lines false s = 0%nat.

Definition is_debounce (t : Timer) : bool :=
  match callback t with
  | HandleMutations _ => true
  | RetryPost _ => false
  end.

(** The pending timers that would call [handleMutations]. *)
Definition debounce_timers (w : World) : list Timer :=
  List.filter is_debounce (timers w).

(** The events that call [startScraper]. *)
Definition is_start (e : Event) : bool :=
  match e with
  | Message (StartScraper _) | Resume => true
  | _ => false
  end.

(** Whether the guards of [processPost] let a node through. *)
Definition accepted (post : Node) (s : Scraper) : bool :=
  match dedup post s with
  | Fresh => true
  | _ => false
  end.

(** What a call of [processPost] leaves alone: everything but the dedup
    index, which can only grow, the store, the retry counter, the borders
    and the retry timers. *)
Record frame (w w' : World) : Prop := {
  f_config : config (scraper w') = config (scraper w);
  f_isActive : isActive (scraper w') = isActive (scraper w);
  f_observer : observer (scraper w') = observer (scraper w);
  f_debounceTimer : debounceTimer (scraper w') = debounceTimer (scraper w);
  f_observing : observing w' = observing w;
  f_next_observer : next_observer w' = next_observer w;
  f_now : now w' = now w;
  f_document : document w' = document w;
  f_downloads : downloads w' = downloads w;
  f_handler_calls : handler_calls w' = handler_calls w;
  f_debounce_timers : debounce_timers w' = debounce_timers w;
  f_processed : processed (scraper w) ⊆ processed (scraper w');
  f_processedIds : processedIds (scraper w) ⊆ processedIds (scraper w')
}.

(** [w'] is [w] with another configuration. *)
Definition same_but_config (w w' : World) : Prop :=
  w' = on_scraper (set_config (config (scraper w'))) w.

(** The dedup index never forgets. *)
Definition grows (w w' : World) : Prop :=
  processed (scraper w) ⊆ processed (scraper w')
  ∧ processedIds (scraper w) ⊆ processedIds (scraper w').

Section Vocabulary.

Context {B : Browser}.

(** A node is delivered to [processPost] after each of the event lists of
    [gaps]; the number of deliveries that pass the guards. *)
Fixpoint accept_count (post : Node) (gaps : list (list Event)) (w : World) : nat :=
  match gaps with
  | [] => 0
  | es :: gaps' =>
      let w1 := run es w in
      ((if accepted post (scraper w1) then 1 else 0)
       + accept_count post gaps' (processPost post w1))%nat
  end.

(** The nodes one added node contributes: itself when it matches, and its
    matching descendants. *)
Definition matching (sel : string) (node : Node) : list Node :=
  if Nat.eqb (nodeType node) ELEMENT_NODE
  then (if matches sel node then [node] else []) ++ select sel node
  else [].

(** All of them over a list of mutation records, repetitions included. *)
Definition candidates (sel : string) (mutations : list MutationRecord) : list Node :=
  flat_map (fun m => flat_map (matching sel) (addedNodes m)) mutations.

(** The worlds the page can be in: the constructor ran, then any events. *)
Definition reachable (w : World) : Prop :=
  ∃ root t0 es, w = run es (initial_world root t0).

End Vocabulary.

(** No two records of the store share an [id] that is present. *)
Definition unique_ids (store : list PostData) : Prop :=
  ∀ i j p q k,
    store !! i = Some p -> store !! j = Some q ->
    id p = Some k -> id q = Some k -> i = j.

(** The store and the set of seen ids agree: ids are unique in the store
    and every id of a record is a seen id. *)
Definition ids_tracked (w : World) : Prop :=
  unique_ids (collectedData (scraper w))
  ∧ ∀ p k, In p (collectedData (scraper w)) -> id p = Some k ->
           k ∈ processedIds (scraper w).

(** A burst of mutation batches: each batch comes [dt] after the one
    before. *)
Definition burst (items : list (Z * list MutationRecord)) : list Event :=
  flat_map (fun item => [Tick (fst item); Mutations (snd item)]) items.

(** The watcher of a world: every pending debounce timer is the one the
    scraper remembers, every connected observer is the one it holds, and
    an idle scraper has neither. *)
Record watcher_ok (w : World) : Prop := {
  wo_timer : ∀ t, In t (debounce_timers w) -> debounceTimer (scraper w) = Some (timer_id t);
  wo_observer : ∀ o, In o (observing w) -> observer (scraper w) = Some o;
  wo_idle : isActive (scraper w) = false -> debounce_timers w = [] ∧ observing w = []
}.

(** ** Vocabulary of the invariants *)

(** Timer handles are never reused: the pending timers have distinct
    handles, all below the next one to be given out. *)
Definition timers_unique (w : World) : Prop :=
  NoDup (map timer_id (timers w))
  ∧ ∀ t, In t (timers w) -> (timer_id t < next_timer w)%positive.

(** Every pending retry is for a node that is already in [processed]. *)
Definition retries_seen (w : World) : Prop :=
  ∀ t post, In t (timers w) -> callback t = RetryPost post ->
            node_ref post ∈ processed (scraper w).

(** The configuration apart from the content selector is the one of the
    constructor, and the retry counter stays within the budget. *)
Definition budget_ok (w : World) : Prop :=
  containerSelector (config (scraper w)) = CONTAINER
  ∧ debounceDelay (config (scraper w)) = 100
  ∧ maxRetries (config (scraper w)) = 3%nat
  ∧ retryDelay (config (scraper w)) = 1000
  ∧ (retryCount (scraper w) ≤ maxRetries (config (scraper w)))%nat.

(** There are never more records than nodes seen. *)
Definition store_bounded (w : World) : Prop :=
  (length (collectedData (scraper w)) ≤ size (processed (scraper w)))%nat.

(** Only nodes in [processed] have been given a border, and a border is
    the red or the green one. *)
Definition borders_ok (w : World) : Prop :=
  ∀ r v, borders w !! r = Some v ->
         r ∈ processed (scraper w) ∧ (v = RED ∨ v = GREEN).

(** Whether a list of bytes begins with white space, for the same [two]
    and [three] as [Js.strip]. *)
Definition white_head (two : ascii -> ascii -> bool)
  (three : ascii -> ascii -> ascii -> bool) (l : list ascii) : bool :=
  match l with
  | [] => false
  | c1 :: r1 =>
      Js.is_space c1
      || match r1 with
         | c2 :: r2 =>
             two c1 c2
             || match r2 with
                | c3 :: _ => three c1 c2 c3
                | [] => false
                end
         | [] => false
         end
  end.

(** A record as [extractPostData] builds them: the id is absent or not
    empty, the text and the text of every link are trimmed. *)
Definition good_record (pd : PostData) : Prop :=
  id pd ≠ Some EmptyString
  ∧ Js.trim (text pd) = text pd
  ∧ Forall (fun l => Js.trim (link_text l) = link_text l) (links pd).

Definition records_ok (w : World) : Prop :=
  Forall good_record (collectedData (scraper w)).

(** The last two statements of [startScraper]: create the observer and
    connect it. *)
Definition arm (w : World) : World :=
  let o := next_observer w in
  set_observing (observing w ++ [o]) (Pos.succ o) (on_scraper (set_observer (Some o)) w).

(** The text of a field as a reader of the export recovers it: a field
    that opens with a quote runs to the closing quote, doubled quotes
    standing for one; any other field is taken as it is. *)
Fixpoint unquote_body (s : string) : option string :=
  match s with
  | EmptyString => None
  | String c s' =>
      if Ascii.eqb c Js.DQUOTE then
        match s' with
        | EmptyString => Some EmptyString
        | String c' s'' =>
            if Ascii.eqb c' Js.DQUOTE then String Js.DQUOTE <$> unquote_body s''
            else None
        end
      else String c <$> unquote_body s'
  end.

Definition decode_field (f : string) : option string :=
  match f with
  | String c rest => if Ascii.eqb c Js.DQUOTE then unquote_body rest else Some f
  | EmptyString => Some f
  end.

(** The text [escapeCSV] is meant to carry for a value. *)
Definition field_text (v : Js.value) : string :=
  match v with
  | Js.Null | Js.Undefined => EmptyString
  | _ => Js.String_of v
  end.

Definition no_tab (s : string) : Prop := Js.includes (Js.chr Js.TAB) s = false.

(** A post none of whose exported texts holds a tab. *)
Definition tab_free (post : PostData) : Prop :=
  no_tab (timestamp post)
  ∧ no_tab (default EmptyString (id post))
  ∧ no_tab (text post)
  ∧ Forall (fun l => no_tab (url l)) (links post)
  ∧ Forall (fun i => no_tab (src i)) (images post).

Section Closure.

Context {B : Browser}.

(** A property of worlds that every elementary change made by the script
    or the browser keeps. *)
Record closed (I : World -> Prop) : Prop := {
  cl_processPost : ∀ post w, I w -> I (processPost post w);
  cl_assign : ∀ c w, I w -> I (assign_contentSelector c w);
  cl_activate : ∀ w, I w -> I (on_scraper (set_isActive true) w);
  cl_arm : ∀ w, I w -> I (arm w);
  cl_stop : ∀ w, I w -> I (stopScraper w);
  cl_download : ∀ csv w, I w -> I (downloadCSV csv w);
  cl_clean : ∀ w, I w -> I (on_scraper (set_collectedData []) w);
  cl_debounce : ∀ mutations w, I w -> I (debouncedMutationHandler mutations w);
  cl_tick : ∀ t w, I w -> I (set_now t w);
  cl_drop : ∀ h w, I w -> I (set_timers (drop_timer h (timers w)) (next_timer w) w);
  cl_calls : ∀ calls w, I w -> I (set_handler_calls calls w);
  cl_document : ∀ root w, I w -> I (set_document root w)
}.

End Closure.

(** The store of [w'] is the store of [w] with at most [n] records added
    at its end. *)
Definition store_extends (n : nat) (w w' : World) : Prop :=
  ∃ new, collectedData (scraper w') = (collectedData (scraper w) ++ new)%list
         ∧ (length new ≤ n)%nat.

(** The active flag and the observer go together: an active scraper holds
    one connected observer, an idle one holds none. *)
Definition armed_ok (w : World) : Prop :=
  if isActive (scraper w)
  then ∃ o, observing w = [o] ∧ observer (scraper w) = Some o
  else observing w = [] ∧ observer (scraper w) = None.

(** The [switch] of [handleMessage] on the text of [request.action]. *)
Definition dispatch (action : string) (selector : option string) : Request :=
  if String.eqb action "startScraper" then StartScraper selector
  else if String.eqb action "stopScraper" then StopScraper
  else if String.eqb action "downloadData" then DownloadData
  else if String.eqb action "getDataCount" then GetDataCount
  else if String.eqb action "cleanData" then CleanData
  else OtherAction action.

Definition UNDEFINED_ACTION : Response :=
  {| success := false; message := Some "Undefined action"; count := None |}.

(** ** The background service ([src/serviceworker.js]) *)

Module Background.

(** The values kept in [chrome.storage.local]. *)
Inductive value : Type :=
  | VBool (b : bool)
  | VNum (n : Z)
  | VNull.

(** [getDefaultValues()] *)
Definition getDefaultValues : gmap string value :=
  <["scraperActive" := VBool false]>
    (<["dataCount" := VNum 0]> (<["lastActiveTab" := VNull]> ∅)).

(** [chrome.storage.local.get(keys)]: the stored entries among [keys]. *)
Definition storage_get (keys : gset string) (storage : gmap string value)
  : gmap string value :=
  filter (fun kv => kv.1 ∈ keys) storage.

(** [chrome.storage.local.set(items)]: the items overwrite. *)
Definition storage_set (items storage : gmap string value) : gmap string value :=
  items ∪ storage.

(** [initializeStorage()], when the storage answers. *)
Definition initializeStorage (storage : gmap string value) : gmap string value :=
  let defaultValues := getDefaultValues in
  let existing := storage_get (dom defaultValues) storage in
  let toSet := filter (fun kv => existing !! kv.1 = None) defaultValues in
  if (0 <? size toSet)%nat then storage_set toSet storage else storage.

(** The two messages the service sends to content scripts. *)
Definition CLEAR_COLLECTED : string := "clearCollectedData".
Definition CHECK_STATUS : string := "checkStatus".

End Background.

Section Cleanup.

Context {B : Browser}.

(** [cleanupStorage()], when the storage answers: the storage is cleared
    and set to the defaults, then every tab that runs the content script
    receives [clearCollectedData]. *)
Definition cleanupStorage (storage : gmap string Background.value) (tabs : list World)
  : gmap string Background.value * list World :=
  (Background.storage_set Background.getDefaultValues ∅,
   map (step (Message (dispatch Background.CLEAR_COLLECTED None))) tabs).

End Cleanup.

(** ** The messages of the widget ([WidgetController]) *)

Module Widget.

(** [toggleScraper()] sends [stopScraper] when the widget shows the scraper
    active and [startScraper] otherwise; neither message has a selector. *)
Definition toggle_message (isActive : bool) : Request :=
  if isActive then dispatch "stopScraper" None else dispatch "startScraper" None.

(** [downloadData()], [updateDataCount()] and [resetData()] *)
Definition download_message : Request := dispatch "downloadData" None.
Definition count_message : Request := dispatch "getDataCount" None.
Definition reset_message : Request := dispatch "cleanData" None.

End Widget.

(** The events that hand the scraper a content selector. *)
Definition carries_selector (e : Event) : bool :=
  match e with
  | Message (StartScraper (Some _)) => true
  | _ => false
  end.

(** Nothing has set a content selector and nothing was collected. *)
Definition unselected (w : World) : Prop :=
  contentSelector (config (scraper w)) = EmptyString
  ∧ collectedData (scraper w) = [].

(** ** More posts for the sample page *)

Module Cases.

(** A container that is no HTML element: reading its text throws. *)
Definition broken : Node := Element 80 "svg" [("role", "article")] [].

(** The sample page after a batch with the broken post was handled. *)
Definition retrying : World :=
  run (B := Sample.engine)
    [Mutations (Sample.batch [broken]); Tick 100; Fire 1] Sample.started.

Definition plain : PostData :=
  {| timestamp := "100"; id := Some "a"; text := "alpha, beta";
     links := [{| url := "https://example.org/x"; link_text := "x" |}];
     images := [] |}.

(** The sample page after post [a] was collected, and a page that shows
    post [a] from the start. *)
Definition collected : World :=
  run (B := Sample.engine)
    [Mutations (Sample.batch [Sample.postA]); Tick 100; Fire 1] Sample.started.


(** The sample page when the debounce timer of a batch with post [a] is
    due and has not fired yet. *)
Definition waiting : World :=
  run (B := Sample.engine) [Mutations (Sample.batch [Sample.postA]); Tick 100] Sample.started.

(** Text between a no-break space (U+00A0) in front and an em space
    (U+2003) and a line separator (U+2028) behind, as UTF-8. *)
Definition padded : string :=
  String (ascii_of_nat 194) (String (ascii_of_nat 160)
    (" alpha beta"
     ++ String (ascii_of_nat 226) (String (ascii_of_nat 128) (String (ascii_of_nat 131)
          (String (ascii_of_nat 226) (String (ascii_of_nat 128) (String (ascii_of_nat 168)
             (Js.chr Js.LF)))))))).

(** A record whose text holds a tab, as the text of a table row does. *)
Definition tabbed : PostData :=
  {| timestamp := "t"; id := Some "i"; text := "A" ++ Js.chr Js.TAB ++ "B";
     links := [{| url := "u"; link_text := "l" |}]; images := [] |}.

Definition recordA : PostData :=
  {| timestamp := "100"; id := Some "a"; text := "alpha"; links := []; images := [] |}.

End Cases.

(* ================================================================== *)
(** * Properties *)

(** ** Strings *)

Lemma includes_chr_cons c a s :
  Js.includes (Js.chr c) (String a s)
  = (Ascii.eqb a c || Js.includes (Js.chr c) s)%bool.
Proof.
  cbn [Js.includes Js.chr String.prefix].
  destruct (ascii_dec c a) as [->|Hne].
  - rewrite Ascii.eqb_refl. by destruct s.
  - destruct (Ascii.eqb_spec a c); [congruence | done].
Qed.

Lemma append_cons c a b : String c a ++ b = String c (a ++ b).
Proof. reflexivity. Qed.

Lemma append_nil_l b : EmptyString ++ b = b.
Proof. reflexivity. Qed.

Lemma append_nil_r a : a ++ EmptyString = a.
Proof. induction a as [|c a IH]; [done |]. by rewrite append_cons, IH. Qed.

Lemma append_assoc a b c : a ++ (b ++ c) = (a ++ b) ++ c.
Proof. induction a as [|x a IH]; [done |]. by rewrite !append_cons, IH. Qed.

Lemma in_quotes_app q a b : in_quotes q (a ++ b) = in_quotes (in_quotes q a) b.
Proof.
  revert q. induction a as [|c a IH]; intros q; [done |].
  rewrite append_cons. cbn. apply IH.
Qed.

Lemma record_lines_app q a b :
  record_lines q (a ++ b) = (record_lines q a + record_lines (in_quotes q a) b)%nat.
Proof.
  revert q. induction a as [|c a IH]; intros q; [done |].
  rewrite append_cons. cbn.
  destruct (Ascii.eqb c Js.DQUOTE); [apply IH |].
  destruct (Ascii.eqb c Js.LF && negb q); rewrite IH; done.
Qed.

(** A string without quote and line feed leaves the reader where it was. *)
Lemma plain_field q s :
  Js.includes (Js.chr Js.DQUOTE) s = false ->
  Js.includes (Js.chr Js.LF) s = false ->
  in_quotes q s = q ∧ record_lines q s = 0%nat.
Proof.
  induction s as [|c s IH]; [done |].
  rewrite !includes_chr_cons. intros [Hq Hs]%orb_false_elim [Hl Hs']%orb_false_elim.
  cbn. rewrite Hq, Hl. cbn. by apply IH.
Qed.

(** Inside quotes, the body with doubled quotes keeps the reader inside. *)
Lemma doubled_body s :
  in_quotes true (Js.replaceAll Js.DQUOTE (String Js.DQUOTE (Js.chr Js.DQUOTE)) s) = true
  ∧ record_lines true (Js.replaceAll Js.DQUOTE (String Js.DQUOTE (Js.chr Js.DQUOTE)) s) = 0%nat.
Proof.
  unfold Js.chr. induction s as [|c s [IH1 IH2]]; [done |].
  cbn [Js.replaceAll]. destruct (Ascii.eqb c Js.DQUOTE) eqn:Hc.
  - rewrite !append_cons, append_nil_l. cbn. done.
  - cbn. rewrite Hc. rewrite andb_false_r. done.
Qed.

(** What [escapeCSV] does with a string: quoted, with quotes doubled, when
    it holds a comma, a quote, a line feed or a carriage return; unchanged
    otherwise. *)
Lemma escapeCSV_string str :
  escapeCSV (Js.Str str)
  = if (Js.includes "," str || Js.includes (Js.chr Js.DQUOTE) str
        || Js.includes (Js.chr Js.LF) str || Js.includes (Js.chr Js.CR) str)%bool
    then Js.chr Js.DQUOTE
         ++ Js.replaceAll Js.DQUOTE (String Js.DQUOTE (Js.chr Js.DQUOTE)) str
         ++ Js.chr Js.DQUOTE
    else str.
Proof. reflexivity. Qed.

Lemma escapeCSV_number n : escapeCSV (Js.Num n) = escapeCSV (Js.Str (Js.String_of_nat n)).
Proof. reflexivity. Qed.

Lemma escapeCSV_string_closed str :
  in_quotes false (escapeCSV (Js.Str str)) = false
  ∧ record_lines false (escapeCSV (Js.Str str)) = 0%nat.
Proof.
  rewrite escapeCSV_string.
  destruct (Js.includes "," str || Js.includes (Js.chr Js.DQUOTE) str
            || Js.includes (Js.chr Js.LF) str || Js.includes (Js.chr Js.CR) str)%bool
    eqn:Hinc.
  - destruct (doubled_body str) as [H1 H2].
    unfold Js.chr in *. rewrite !append_cons, !append_nil_l.
    cbn [in_quotes record_lines]. rewrite Ascii.eqb_refl. cbn [negb].
    rewrite in_quotes_app, record_lines_app, H1, H2. done.
  - apply orb_false_elim in Hinc as [Hinc _].
    apply orb_false_elim in Hinc as [Hinc Hlf].
    apply orb_false_elim in Hinc as [_ Hq].
    by apply plain_field.
Qed.

(** Whatever it is given, [escapeCSV] returns a field that a reader enters
    and leaves outside quotes, with no end of record in between. *)
Lemma escapeCSV_closed v :
  in_quotes false (escapeCSV v) = false ∧ record_lines false (escapeCSV v) = 0%nat.
Proof.
  destruct v as [| |str|n]; [done | done | apply escapeCSV_string_closed |].
  rewrite escapeCSV_number. apply escapeCSV_string_closed.
Qed.

(** ** Export encoder *)

Lemma closed_text_app a b : closed_text a -> closed_text b -> closed_text (a ++ b).
Proof.
  intros [Ha1 Ha2] [Hb1 Hb2]. split.
  - by rewrite in_quotes_app, Ha1.
  - by rewrite record_lines_app, Ha1, Ha2, Hb2.
Qed.

Lemma join_closed sep cells :
  closed_text sep -> Forall closed_text cells -> closed_text (Js.join sep cells).
Proof.
  intros Hsep. induction 1 as [|c cells Hc Hcells IH]; [done |].
  unfold Js.join in *. cbn [String.concat]. destruct cells as [|c' cells]; [done |].
  apply closed_text_app; [done |]. apply closed_text_app; [done |]. apply IH.
Qed.

Lemma csv_row_closed post : Forall closed_text (csv_row post).
Proof. unfold csv_row. repeat constructor; apply escapeCSV_closed. Qed.

Lemma headers_closed : Forall closed_text headers.
Proof. unfold headers. repeat constructor. Qed.

(** A line written by the encoder is one record line for the reader. *)
Lemma csv_line_one cells :
  Forall closed_text cells ->
  in_quotes false (csv_line cells) = false
  ∧ record_lines false (csv_line cells) = 1%nat.
Proof.
  intros Hc. unfold csv_line.
  destruct (join_closed (Js.chr Js.TAB) cells) as [H1 H2]; [done | done |].
  by rewrite in_quotes_app, record_lines_app, H1, H2.
Qed.

Lemma concat_cons x xs : String.concat EmptyString (x :: xs) = x ++ String.concat EmptyString xs.
Proof.
  cbn [String.concat]. destruct xs as [|y xs]; [by rewrite append_nil_r | done].
Qed.

(** The accumulating loop of [convertToCSV] is a concatenation. *)
Lemma csv_fold data acc :
  fold_left (fun csv post => csv ++ csv_line (csv_row post)) data acc
  = acc ++ String.concat EmptyString (map (fun post => csv_line (csv_row post)) data).
Proof.
  revert acc. induction data as [|p data IH]; intros acc; cbn [fold_left map].
  - cbn. by rewrite append_nil_r.
  - by rewrite IH, concat_cons, append_assoc.
Qed.

Lemma rows_lines data :
  in_quotes false (String.concat EmptyString (map (fun post => csv_line (csv_row post)) data)) = false
  ∧ record_lines false (String.concat EmptyString (map (fun post => csv_line (csv_row post)) data))
    = length data.
Proof.
  induction data as [|p data [IH1 IH2]]; [done |].
  destruct (csv_line_one (csv_row p) (csv_row_closed p)) as [H1 H2].
  cbn [map length]. rewrite concat_cons.
  by rewrite in_quotes_app, record_lines_app, H1, H2, IH1, IH2.
Qed.

(** The encoding of no record is the sentinel text, which is not a
    header-only document.  The encoding of [n > 0] records is the header
    line followed by one line per record, in order; read back, it has one
    header line and exactly [n] data lines (line feeds inside quoted fields
    belong to the field).  The header and every data line are written as
    seven cells joined by tabs: timestamp, id, text, number of links, link
    URLs joined by a semicolon and a space, number of images, image URLs
    joined the same way. *)
Theorem convertToCSV_lines :
  convertToCSV [] = "No data to export"
  ∧ convertToCSV [] ≠ csv_line headers
  ∧ (∀ post data,
       convertToCSV (post :: data)
       = csv_line headers
         ++ String.concat EmptyString (map (fun p => csv_line (csv_row p)) (post :: data))
       ∧ record_lines false (convertToCSV (post :: data)) = S (length (post :: data)))
  ∧ csv_line headers
    = "Timestamp" ++ Js.chr Js.TAB ++ "Post ID" ++ Js.chr Js.TAB ++ "Post Text"
      ++ Js.chr Js.TAB ++ "Links Count" ++ Js.chr Js.TAB ++ "Links URLs"
      ++ Js.chr Js.TAB ++ "Images Count" ++ Js.chr Js.TAB ++ "Image URLs"
      ++ Js.chr Js.LF
  ∧ (∀ p,
       csv_line (csv_row p)
       = escapeCSV (Js.Str (timestamp p)) ++ Js.chr Js.TAB
         ++ escapeCSV (Js.of_option (id p)) ++ Js.chr Js.TAB
         ++ escapeCSV (Js.Str (text p)) ++ Js.chr Js.TAB
         ++ escapeCSV (Js.Num (length (links p))) ++ Js.chr Js.TAB
         ++ escapeCSV (Js.Str (Js.join "; " (map url (links p)))) ++ Js.chr Js.TAB
         ++ escapeCSV (Js.Num (length (images p))) ++ Js.chr Js.TAB
         ++ escapeCSV (Js.Str (Js.join "; " (map src (images p))))
         ++ Js.chr Js.LF).
Proof.
  split; [done |]. split; [done |]. split; [| split].
  - intros post data. unfold convertToCSV. rewrite csv_fold. split; [done |].
    destruct (csv_line_one headers headers_closed) as [H1 H2].
    destruct (rows_lines (post :: data)) as [_ H3].
    by rewrite record_lines_app, H1, H2, H3.
  - reflexivity.
  - intros p. unfold csv_line, csv_row, Js.join. cbn [String.concat].
    by rewrite <- !append_assoc.
Qed.

(** The example of the quoting rule: the text A,B followed by a quote and
    C comes out wrapped in quotes with the inner quote doubled. *)
Lemma escapeCSV_example :
  escapeCSV (Js.Str ("A,B" ++ Js.chr Js.DQUOTE ++ "C"))
  = Js.chr Js.DQUOTE ++ "A,B" ++ Js.chr Js.DQUOTE ++ Js.chr Js.DQUOTE ++ "C"
    ++ Js.chr Js.DQUOTE.
Proof. reflexivity. Qed.

(** C4.  The separator written by [convertToCSV] is the tab, the character
    tested by [escapeCSV] is the comma: a field holding a tab is written
    bare, and the line of a post whose text is [A<TAB>B] reads back as
    eight columns under the seven of the header. *)
Theorem escapeCSV_tab_unquoted :
  Js.includes (Js.chr Js.TAB) ("A" ++ Js.chr Js.TAB ++ "B") = true
  ∧ escapeCSV (Js.Str ("A" ++ Js.chr Js.TAB ++ "B")) = "A" ++ Js.chr Js.TAB ++ "B"
  ∧ columns false (csv_line headers) = 7%nat
  ∧ columns false
      (csv_line (csv_row {| timestamp := "t"; id := None;
                            text := "A" ++ Js.chr Js.TAB ++ "B";
                            links := []; images := [] |})) = 8%nat.
Proof. repeat split; reflexivity. Qed.


(** ** The dedup tracker and [processPost] *)

Ltac retry_cases :=
  unfold retry_later;
  match goal with
  | |- context [(?a <? ?b)%nat] => destruct (a <? b)%nat eqn:Hbudget
  end.

(** The ways through [processPost]: turned away at one of the two guards;
    or fresh, with or without marker, with or without [style], extraction
    done or thrown, retry scheduled or budget used up. *)
Ltac processPost_cases post w :=
  unfold processPost, assign_border;
  destruct (dedup post (scraper w)) eqn:Hdedup;
  [ | |
    destruct (select MARKER post) eqn:Hmarker;
    destruct (hasStyle post) eqn:Hstyle;
    [ match goal with
      | |- context [extractPostData ?p ?x] =>
          destruct (extractPostData p x) as [pd|] eqn:Hextract
      end;
      [ | retry_cases ]
    | retry_cases
    |
    | retry_cases ] ];
  try destruct (Js.truthy (reflected "id" post)) eqn:Htruthy.


Section Engine.

Context {B : Browser}.

Lemma frame_refl w : frame w w.
Proof. by split. Qed.

Lemma frame_trans w1 w2 w3 : frame w1 w2 -> frame w2 w3 -> frame w1 w3.
Proof.
  intros [] []. split; try congruence; set_solver.
Qed.

Lemma processPost_frame post w : frame w (processPost post w).
Proof.
  processPost_cases post w; try apply frame_refl;
    split; cbn; try done; try set_solver;
    unfold debounce_timers; cbn; rewrite List.filter_app; cbn; by rewrite app_nil_r.
Qed.

Lemma processPosts_frame posts w : frame w (processPosts posts w).
Proof.
  revert w. induction posts as [|p posts IH]; intros w; cbn; [apply frame_refl |].
  eapply frame_trans; [apply processPost_frame | apply IH].
Qed.

Lemma processExistingPosts_frame w : frame w (processExistingPosts w).
Proof.
  unfold processExistingPosts. destruct (document_querySelectorAll _ _);
    [apply processPosts_frame | apply frame_refl].
Qed.

Lemma handleMutations_frame mutations w :
  frame (set_handler_calls (handler_calls w ++ [mutations]) w)
        (handleMutations mutations w).
Proof.
  unfold handleMutations. destruct (selector_valid _);
    [apply processPosts_frame | apply frame_refl].
Qed.

Lemma frame_grows w w' : frame w w' -> grows w w'.
Proof. intros []. by split. Qed.

Lemma grows_refl w : grows w w.
Proof. by split. Qed.

Lemma grows_trans w1 w2 w3 : grows w1 w2 -> grows w2 w3 -> grows w1 w3.
Proof. intros [] []. split; set_solver. Qed.

(** A world that differs from another outside the dedup index. *)
Lemma grows_same w w' :
  processed (scraper w') = processed (scraper w) ->
  processedIds (scraper w') = processedIds (scraper w) -> grows w w'.
Proof. intros H1 H2. split; [by rewrite H1 | by rewrite H2]. Qed.

Lemma startScraper_grows w : grows w (startScraper w).
Proof.
  unfold startScraper. destruct (isActive (scraper w)); [apply grows_refl |].
  eapply grows_trans;
    [| eapply grows_trans;
         [apply frame_grows, (processExistingPosts_frame (on_scraper (set_isActive true) w)) |]];
    by apply grows_same.
Qed.

Lemma stopScraper_grows w : grows w (stopScraper w).
Proof.
  unfold stopScraper. destruct (isActive (scraper w)); cbn; [| apply grows_refl].
  destruct (observer (scraper w)); cbn; destruct (debounceTimer (scraper w));
    by apply grows_same.
Qed.

Lemma debounced_scraper mutations w :
  scraper (debouncedMutationHandler mutations w)
  = set_debounceTimer (Some (next_timer w)) (scraper w).
Proof. unfold debouncedMutationHandler. by destruct (debounceTimer (scraper w)). Qed.

Lemma deliver_grows mutations (obs : list positive) w :
  grows w (fold_left (fun w' _ => debouncedMutationHandler mutations w') obs w).
Proof.
  revert w. induction obs as [|o obs IH]; intros w; cbn [fold_left]; [apply grows_refl |].
  eapply grows_trans; [| apply IH]. apply grows_same; by rewrite debounced_scraper.
Qed.

Lemma handleMessage_grows request w : grows w (fst (handleMessage request w)).
Proof.
  destruct request as [[sel|]| | | | |]; cbn; try apply grows_refl.
  - destruct (Js.indexOf "." sel =? -1); [| destruct (Js.indexOf "." sel =? 0)]; cbn;
      try apply grows_refl;
      (eapply grows_trans; [| apply startScraper_grows]; by apply grows_same).
  - apply stopScraper_grows.
  - unfold downloadData. destruct (collectedData (scraper w)); cbn;
      [apply grows_refl | by apply grows_same].
  - by apply grows_same.
Qed.

Lemma step_grows e w : grows w (step e w).
Proof.
  destruct e as [request| |batch|dt|h|root]; cbn.
  - apply handleMessage_grows.
  - apply startScraper_grows.
  - apply deliver_grows.
  - destruct (0 <=? dt); by apply grows_same.
  - destruct (find_timer h (timers w)) as [t|]; [| apply grows_refl].
    destruct (due t <=? now w); [| apply grows_refl].
    destruct (callback t) as [mutations|post]; cbn.
    + eapply grows_trans; [| apply frame_grows, handleMutations_frame]. by apply grows_same.
    + eapply grows_trans; [| apply frame_grows, processPost_frame]. by apply grows_same.
  - by apply grows_same.
Qed.

Lemma run_grows es w : grows w (run es w).
Proof.
  revert w. induction es as [|e es IH]; intros w; cbn; [apply grows_refl |].
  eapply grows_trans; [apply step_grows | apply IH].
Qed.

(** Identity is looked up first: a node already in [processed] is turned
    away whatever its [id]. *)
Lemma dedup_seen_node post s :
  node_ref post ∈ processed s -> dedup post s = SeenNode.
Proof. intros Hin. unfold dedup. by rewrite bool_decide_eq_true_2. Qed.

Lemma dedup_fresh post s :
  dedup post s = Fresh
  <-> ((node_ref post ∉ processed s)
       ∧ (reflected "id" post = EmptyString ∨ reflected "id" post ∉ processedIds s)).
Proof.
  unfold dedup. case_bool_decide as Hn; [split; [done | by intros [? _]] |].
  destruct (reflected "id" post) as [|c i] eqn:Hid; cbn.
  - split; [by auto | done].
  - case_bool_decide as Hi; (split; [try done | intros [_ [|]]; done]). by auto.
Qed.

(** Once turned away, always turned away. *)
Lemma rejected_stays post w w' :
  grows w w' -> accepted post (scraper w) = false -> accepted post (scraper w') = false.
Proof.
  intros [Hp Hi]. unfold accepted, dedup.
  case_bool_decide as Hn.
  - intros _. rewrite bool_decide_eq_true_2; [done | set_solver].
  - destruct (Js.truthy (reflected "id" post)); cbn; [| done].
    case_bool_decide as Hid; [| done]. intros _.
    case_bool_decide; [done |]. rewrite bool_decide_eq_true_2; [done | set_solver].
Qed.

Lemma processPost_rejected post w :
  accepted post (scraper w) = false -> processPost post w = w.
Proof. unfold accepted, processPost. by destruct (dedup post (scraper w)). Qed.

(** An accepted node is in [processed] when [processPost] returns, however
    it returns. *)
Lemma processPost_marks post w :
  accepted post (scraper w) = true ->
  node_ref post ∈ processed (scraper (processPost post w)).
Proof.
  unfold accepted. processPost_cases post w; try done; intros _; cbn; set_solver.
Qed.

Lemma processPost_seen post w : accepted post (scraper (processPost post w)) = false.
Proof.
  destruct (accepted post (scraper w)) eqn:Ha.
  - unfold accepted. by rewrite dedup_seen_node by by apply processPost_marks.
  - by rewrite processPost_rejected.
Qed.

Lemma accept_count_rejected post gaps w :
  accepted post (scraper w) = false -> accept_count post gaps w = 0%nat.
Proof.
  revert w. induction gaps as [|es gaps IH]; intros w Hw; cbn [accept_count]; [done |].
  assert (Hr : accepted post (scraper (run es w)) = false)
    by (eapply rejected_stays; [apply run_grows | done]).
  rewrite Hr, processPost_rejected by done. by rewrite IH.
Qed.

(** C3, as the code has it.  However often and after whatever events a
    node is delivered to [processPost], the guards let it through at most
    once.  If at its first delivery neither the node nor its non-empty
    [id] attribute has been seen, that delivery is accepted and every
    later one is turned away.  The identity of the node is looked up before
    its [id]: a node in [processed] is turned away as [SeenNode] whatever
    the set of seen ids holds. *)
Theorem dedup_accepts_at_most_once post gaps w :
  (accept_count post gaps w ≤ 1)%nat
  ∧ (∀ es,
       node_ref post ∉ processed (scraper (run es w)) ->
       reflected "id" post = EmptyString ∨ reflected "id" post ∉ processedIds (scraper (run es w)) ->
       accepted post (scraper (run es w)) = true
       ∧ accept_count post (es :: gaps) w = 1%nat
       ∧ accept_count post gaps (processPost post (run es w)) = 0%nat)
  ∧ (∀ s, node_ref post ∈ processed s -> dedup post s = SeenNode).
Proof.
  split; [| split].
  - destruct gaps as [|es gaps]; cbn [accept_count]; [lia |].
    rewrite (accept_count_rejected post gaps) by apply processPost_seen.
    destruct (accepted _ _); lia.
  - intros es Hn Hi.
    assert (Ha : accepted post (scraper (run es w)) = true).
    { unfold accepted. by rewrite (proj2 (dedup_fresh post _)). }
    assert (H0 : accept_count post gaps (processPost post (run es w)) = 0%nat)
      by apply accept_count_rejected, processPost_seen.
    split; [done |]. split; [| done]. cbn [accept_count]. by rewrite Ha, H0.
  - apply dedup_seen_node.
Qed.

(** C5.  A node that holds the repost marker adds no record to the store.
    When [processPost] returns, the dedup index turns the node away; if the
    guards had let it through, its identity is in [processed], and its
    [id], when it has one, in [processedIds].  After any further events a
    new delivery of the node changes nothing at all. *)
Theorem repost_skipped_and_seen post w :
  select MARKER post ≠ [] ->
  collectedData (scraper (processPost post w)) = collectedData (scraper w)
  ∧ accepted post (scraper (processPost post w)) = false
  ∧ (accepted post (scraper w) = true ->
       node_ref post ∈ processed (scraper (processPost post w))
       ∧ (reflected "id" post ≠ EmptyString ->
            reflected "id" post ∈ processedIds (scraper (processPost post w))))
  ∧ (∀ es, processPost post (run es (processPost post w)) = run es (processPost post w)).
Proof.
  intros Hm. split; [| split; [| split]].
  - processPost_cases post w; done.
  - apply processPost_seen.
  - intros Ha. split; [by apply processPost_marks |].
    intros Hid. assert (Htr : Js.truthy (reflected "id" post) = true)
      by by destruct (reflected "id" post).
    revert Ha. unfold accepted. processPost_cases post w; try done; intros _; cbn;
      by apply elem_of_union_l, elem_of_singleton.
  - intros es. apply processPost_rejected.
    eapply rejected_stays; [apply run_grows | apply processPost_seen].
Qed.

End Engine.

(** ** Messages: selector, clear, start *)

Lemma indexOf_from_spec needle s i :
  0 <= i ->
  (Js.includes needle s = false ∧ Js.indexOf_from needle s i = -1)
  ∨ (Js.includes needle s = true ∧ i <= Js.indexOf_from needle s i
     ∧ ((Js.indexOf_from needle s i =? i) = String.prefix needle s)).
Proof.
  revert i. induction s as [|c s IH]; intros i Hi; cbn [Js.includes Js.indexOf_from].
  - destruct (String.prefix needle EmptyString); [right | left]; [| done].
    split; [done |]. split; [lia |]. apply Z.eqb_refl.
  - destruct (String.prefix needle (String c s)).
    + right. split; [done |]. split; [lia |]. apply Z.eqb_refl.
    + destruct (IH (i + 1)) as [[H1 H2]|(H1 & H2 & _)]; [lia | by left |].
      right. split; [done |]. split; [lia |]. apply Z.eqb_neq. lia.
Qed.

Lemma indexOf_none needle s :
  (Js.indexOf needle s =? -1) = negb (Js.includes needle s).
Proof.
  unfold Js.indexOf.
  destruct (indexOf_from_spec needle s 0) as [[-> ->]|(-> & H2 & _)]; [lia | done |].
  apply Z.eqb_neq. lia.
Qed.

Lemma indexOf_first needle s :
  Js.includes needle s = true -> (Js.indexOf needle s =? 0) = String.prefix needle s.
Proof.
  unfold Js.indexOf. intros Hinc.
  destruct (indexOf_from_spec needle s 0) as [[H1 _]|(_ & _ & H3)]; [lia | congruence | done].
Qed.

Section Messages.

Context {B : Browser}.

Lemma startScraper_config w : config (scraper (startScraper w)) = config (scraper w).
Proof.
  unfold startScraper. destruct (isActive (scraper w)); [done |]. cbn.
  by rewrite (f_config _ _ (processExistingPosts_frame (on_scraper (set_isActive true) w))).
Qed.

(** C6.  The reply to [startScraper] with a selector: without any dot the
    content selector becomes the selector behind a dot, with a dot as first
    character it becomes the selector itself, and in both cases the scraper
    is started with it; with a dot anywhere else the reply is the failure
    [Invalid selector] and the world is left as it was. *)
Theorem start_selector_prefixing sel w :
  handleMessage (StartScraper (Some sel)) w
  = (if negb (Js.includes "." sel)
     then (startScraper (assign_contentSelector ("." ++ sel) w), Some STARTED)
     else if String.prefix "." sel
          then (startScraper (assign_contentSelector sel w), Some STARTED)
          else (w, Some INVALID))
  ∧ (∀ c, contentSelector (config (scraper (startScraper (assign_contentSelector c w)))) = c)
  ∧ (String.prefix "." sel = true <-> ∃ rest, sel = String "." rest)
  ∧ success INVALID = false.
Proof.
  split; [| split; [| split]].
  - cbn [handleMessage]. rewrite indexOf_none.
    destruct (Js.includes "." sel) eqn:Hinc; cbn [negb]; [| done].
    by rewrite indexOf_first.
  - intros c. by rewrite startScraper_config.
  - destruct sel as [|a rest]; cbn [String.prefix].
    + split; [done | by intros [? ?]].
    + destruct (ascii_dec "." a) as [<-|Hne].
      * split; [by eexists | by destruct rest].
      * split; [done | intros [? ?]; congruence].
  - done.
Qed.

(** C8.  [cleanData] empties the store and reports success; the reply to
    the message counts zero records.  Both sets of the dedup index, the
    active flag, the observer, the debounce handle and every other part of
    the scraper and of the page are what they were. *)
Theorem cleanData_only_empties_store w :
  collectedData (scraper (fst (cleanData w))) = []
  ∧ snd (cleanData w) = true
  ∧ handleMessage CleanData w
    = (fst (cleanData w),
       Some {| success := true; message := None; count := Some 0%nat |})
  ∧ snd (handleMessage GetDataCount (fst (cleanData w)))
    = Some {| success := true; message := None; count := Some 0%nat |}
  ∧ processed (scraper (fst (cleanData w))) = processed (scraper w)
  ∧ processedIds (scraper (fst (cleanData w))) = processedIds (scraper w)
  ∧ isActive (scraper (fst (cleanData w))) = isActive (scraper w)
  ∧ observer (scraper (fst (cleanData w))) = observer (scraper w)
  ∧ debounceTimer (scraper (fst (cleanData w))) = debounceTimer (scraper w)
  ∧ retryCount (scraper (fst (cleanData w))) = retryCount (scraper w)
  ∧ config (scraper (fst (cleanData w))) = config (scraper w)
  ∧ fst (cleanData w) = on_scraper (set_collectedData []) w
  ∧ (timers (fst (cleanData w)), next_timer (fst (cleanData w)),
     observing (fst (cleanData w)), next_observer (fst (cleanData w)),
     now (fst (cleanData w)), document (fst (cleanData w)),
     borders (fst (cleanData w)), downloads (fst (cleanData w)),
     handler_calls (fst (cleanData w)))
    = (timers w, next_timer w, observing w, next_observer w, now w, document w,
       borders w, downloads w, handler_calls w).
Proof. repeat split. Qed.

Lemma on_scraper_same_config w : on_scraper (set_config (config (scraper w))) w = w.
Proof. destruct w as [[] ? ? ? ? ? ? ? ? ?]. reflexivity. Qed.

(** C10.  On an active scraper [startScraper] returns the world it was
    given: no scan, no new observer, nothing changed.  The message that
    starts the scraper changes at most the content selector of the
    configuration. *)
Theorem start_when_active_is_noop w :
  isActive (scraper w) = true ->
  startScraper w = w
  ∧ step Resume w = w
  ∧ (∀ sel, same_but_config w (fst (handleMessage (StartScraper sel) w)))
  ∧ (∀ sel, let w' := fst (handleMessage (StartScraper sel) w) in
       collectedData (scraper w') = collectedData (scraper w)
       ∧ processed (scraper w') = processed (scraper w)
       ∧ processedIds (scraper w') = processedIds (scraper w)
       ∧ observer (scraper w') = observer (scraper w)
       ∧ debounceTimer (scraper w') = debounceTimer (scraper w)
       ∧ isActive (scraper w') = true
       ∧ observing w' = observing w ∧ next_observer w' = next_observer w
       ∧ timers w' = timers w ∧ handler_calls w' = handler_calls w
       ∧ borders w' = borders w).
Proof.
  intros Ha.
  assert (Hs : startScraper w = w) by (unfold startScraper; by rewrite Ha).
  assert (Hm : ∀ sel, same_but_config w (fst (handleMessage (StartScraper sel) w))).
  { intros [sel|]; unfold same_but_config; cbn [handleMessage fst];
      [| by rewrite on_scraper_same_config].
    assert (Hc : ∀ c, startScraper (assign_contentSelector c w) = assign_contentSelector c w)
      by (intros c; unfold startScraper; cbn; by rewrite Ha).
    destruct (Js.indexOf "." sel =? -1); [| destruct (Js.indexOf "." sel =? 0)];
      cbn [fst]; rewrite ?Hc, ?on_scraper_same_config; done. }
  split; [done |]. split; [done |]. split; [done |].
  intros sel w'. subst w'. rewrite (Hm sel). cbn. by rewrite Ha.
Qed.

End Messages.

(** ** The watcher: observer and debounce timer *)

Lemma filter_none {A} (f : A -> bool) (l : list A) :
  (∀ x, In x l -> f x = false) -> List.filter f l = [].
Proof.
  induction l as [|a l IH]; intros Hf; cbn; [done |].
  rewrite (Hf a) by by left. apply IH. intros x Hx. apply Hf. by right.
Qed.

Lemma no_elements {A} (l : list A) : (∀ x, In x l -> False) -> l = [].
Proof. destruct l as [|a l]; [done |]. intros Hf. destruct (Hf a). by left. Qed.

(** Dropping the remembered handle drops every debounce timer, when every
    debounce timer carries that handle. *)
Lemma drop_remembered h l :
  (∀ t, In t (List.filter is_debounce l) -> Some h = Some (timer_id t)) ->
  List.filter is_debounce (drop_timer h l) = [].
Proof.
  intros Hall. apply filter_none. intros t [Ht Hne]%List.filter_In.
  destruct (is_debounce t) eqn:Hd; [| done].
  assert (Some h = Some (timer_id t)) as [= ->] by (apply Hall, List.filter_In; done).
  by rewrite Pos.eqb_refl in Hne.
Qed.

Lemma drop_debounce_subset h l t :
  In t (List.filter is_debounce (drop_timer h l)) -> In t (List.filter is_debounce l).
Proof.
  intros [[Ht _]%List.filter_In Hd]%List.filter_In. by apply List.filter_In.
Qed.

Lemma watcher_ok_same w w' :
  debounce_timers w' = debounce_timers w ->
  debounceTimer (scraper w') = debounceTimer (scraper w) ->
  observing w' = observing w ->
  observer (scraper w') = observer (scraper w) ->
  isActive (scraper w') = isActive (scraper w) ->
  watcher_ok w -> watcher_ok w'.
Proof.
  intros H1 H2 H3 H4 H5 [Ht Ho Hi]. split; rewrite ?H1, ?H2, ?H3, ?H4, ?H5; done.
Qed.

Section Watcher.

Context {B : Browser}.

Lemma frame_watcher_ok w w' : frame w w' -> watcher_ok w -> watcher_ok w'.
Proof. intros []. by apply watcher_ok_same. Qed.

Lemma initial_ok root t0 : watcher_ok (initial_world root t0).
Proof. split; cbn; done. Qed.

Lemma startScraper_ok w : watcher_ok w -> watcher_ok (startScraper w).
Proof.
  intros Hw. unfold startScraper. destruct (isActive (scraper w)) eqn:Ha; [done |].
  destruct (wo_idle _ Hw Ha) as [Hd Ho].
  pose proof (processExistingPosts_frame (on_scraper (set_isActive true) w)) as Hf.
  set (w2 := processExistingPosts (on_scraper (set_isActive true) w)) in *.
  split; cbn.
  - change (∀ t, In t (debounce_timers w2) -> debounceTimer (scraper w2) = Some (timer_id t)).
    rewrite (f_debounce_timers _ _ Hf). change (debounce_timers (on_scraper _ w))
      with (debounce_timers w). by rewrite Hd.
  - rewrite (f_observing _ _ Hf). cbn. rewrite Ho. cbn. intros o [<-|[]]. done.
  - rewrite (f_isActive _ _ Hf). done.
Qed.

(** After [stopScraper] the scraper is idle, no debounce timer is pending
    and no observer is connected. *)
Lemma stopScraper_idle w :
  watcher_ok w ->
  isActive (scraper (stopScraper w)) = false
  ∧ debounce_timers (stopScraper w) = []
  ∧ observing (stopScraper w) = [].
Proof.
  intros [Ht Ho Hi]. unfold stopScraper. destruct (isActive (scraper w)) eqn:Ha; cbn.
  2: { destruct Hi; done. }
  destruct (observer (scraper w)) as [o|] eqn:Hobs; cbn;
    destruct (debounceTimer (scraper w)) as [h|] eqn:Hh; cbn;
    (split; [done |]); unfold debounce_timers; cbn; split;
    first [ by apply drop_remembered
          | apply no_elements; intros t Hin; by specialize (Ht t Hin)
          | apply filter_none; intros o' Hin; specialize (Ho o' Hin);
            injection Ho as ->; by rewrite Pos.eqb_refl
          | apply no_elements; intros o' Hin; by specialize (Ho o' Hin) ].
Qed.

Lemma idle_ok w :
  isActive (scraper w) = false -> debounce_timers w = [] -> observing w = [] ->
  watcher_ok w.
Proof. intros Ha Hd Ho. split; rewrite ?Hd, ?Ho; done. Qed.

Lemma stopScraper_ok w : watcher_ok w -> watcher_ok (stopScraper w).
Proof. intros Hw. destruct (stopScraper_idle w Hw) as (? & ? & ?). by apply idle_ok. Qed.

(** After a batch went through [debouncedMutationHandler], the one pending
    debounce timer is the new one, and it carries that batch alone. *)
Lemma debounced_timers mutations w :
  watcher_ok w ->
  debounce_timers (debouncedMutationHandler mutations w)
  = [{| timer_id := next_timer w;
        due := now w + Z.max 0 (debounceDelay (config (scraper w)));
        callback := HandleMutations mutations |}].
Proof.
  intros [Ht _ _]. unfold debouncedMutationHandler, debounce_timers in *.
  destruct (debounceTimer (scraper w)) as [h|] eqn:Hh; cbn;
    rewrite List.filter_app; cbn.
  - by rewrite drop_remembered.
  - rewrite (no_elements (List.filter is_debounce (timers w))); [done |].
    intros t Hin. by specialize (Ht t Hin).
Qed.

Lemma debounced_observing mutations w :
  observing (debouncedMutationHandler mutations w) = observing w.
Proof. unfold debouncedMutationHandler. by destruct (debounceTimer (scraper w)). Qed.

Lemma debounced_ok mutations w :
  watcher_ok w -> isActive (scraper w) = true ->
  watcher_ok (debouncedMutationHandler mutations w).
Proof.
  intros Hw Ha. split.
  - rewrite debounced_timers by done. rewrite debounced_scraper. cbn.
    intros t [<-|[]]. done.
  - rewrite debounced_observing, debounced_scraper. cbn. apply (wo_observer _ Hw).
  - rewrite debounced_scraper. cbn. congruence.
Qed.

Lemma deliver_ok mutations (obs : list positive) w :
  watcher_ok w -> isActive (scraper w) = true ->
  watcher_ok (fold_left (fun w' _ => debouncedMutationHandler mutations w') obs w).
Proof.
  revert w. induction obs as [|o obs IH]; intros w Hw Ha; cbn [fold_left]; [done |].
  apply IH; [by apply debounced_ok | by rewrite debounced_scraper].
Qed.

Lemma handleMessage_ok request w :
  watcher_ok w -> watcher_ok (fst (handleMessage request w)).
Proof.
  intros Hw. destruct request as [[sel|]| | | | |]; cbn [handleMessage fst]; try done.
  - destruct (Js.indexOf "." sel =? -1); [| destruct (Js.indexOf "." sel =? 0)];
      cbn [fst]; try done; apply startScraper_ok; by apply (watcher_ok_same w).
  - by apply stopScraper_ok.
  - unfold downloadData. destruct (collectedData (scraper w)); cbn [fst]; [done |].
    by apply (watcher_ok_same w).
  - by apply (watcher_ok_same w).
Qed.

Lemma find_timer_In h l t : find_timer h l = Some t -> In t l.
Proof. intros Hf. by apply List.find_some in Hf as [? _]. Qed.

Lemma dropped_ok h w :
  watcher_ok w -> watcher_ok (set_timers (drop_timer h (timers w)) (next_timer w) w).
Proof.
  intros [Ht Ho Hi]. split; cbn; [| done |].
  - intros t Hin. apply Ht. by eapply drop_debounce_subset.
  - intros Ha. destruct (Hi Ha) as [Hd Hobs]. split; [| done].
    apply no_elements. intros t Hin%drop_debounce_subset.
    unfold debounce_timers in Hd. by rewrite Hd in Hin.
Qed.

Lemma run_callback_ok cb w : watcher_ok w -> watcher_ok (run_callback cb w).
Proof.
  intros Hw. destruct cb as [mutations|post]; cbn.
  - eapply frame_watcher_ok; [apply handleMutations_frame |]. by apply (watcher_ok_same w).
  - eapply frame_watcher_ok; [apply processPost_frame | done].
Qed.

Lemma step_ok e w : watcher_ok w -> watcher_ok (step e w).
Proof.
  intros Hw. destruct e as [request| |batch|dt|h|root]; cbn [step].
  - by apply handleMessage_ok.
  - by apply startScraper_ok.
  - destruct (isActive (scraper w)) eqn:Ha; [by apply deliver_ok |].
    destruct (wo_idle _ Hw Ha) as [_ ->]. done.
  - destruct (0 <=? dt); [by apply (watcher_ok_same w) | done].
  - destruct (find_timer h (timers w)) as [t|]; [| done].
    destruct (due t <=? now w); [| done]. by apply run_callback_ok, dropped_ok.
  - by apply (watcher_ok_same w).
Qed.

Lemma run_ok es w : watcher_ok w -> watcher_ok (run es w).
Proof.
  revert w. induction es as [|e es IH]; intros w Hw; cbn; [done |].
  by apply IH, step_ok.
Qed.

(** While the scraper is idle and nothing starts it, it stays idle and
    [handleMutations] is not called. *)
Lemma idle_step e w :
  watcher_ok w -> isActive (scraper w) = false -> is_start e = false ->
  isActive (scraper (step e w)) = false ∧ handler_calls (step e w) = handler_calls w.
Proof.
  intros Hw Ha He. destruct (wo_idle _ Hw Ha) as [Hd Ho].
  destruct e as [request| |batch|dt|h|root]; cbn [step]; try done.
  - destruct request as [sel| | | | |]; cbn; try done.
    + unfold stopScraper. by rewrite Ha.
    + unfold downloadData. by destruct (collectedData (scraper w)).
  - by rewrite Ho.
  - by destruct (0 <=? dt).
  - destruct (find_timer h (timers w)) as [t|] eqn:Hf; [| done].
    destruct (due t <=? now w); [| done].
    destruct (callback t) as [mutations|post] eqn:Hcb; cbn [run_callback].
    + assert (Hin : In t (debounce_timers w)).
      { apply List.filter_In. split; [by eapply find_timer_In |].
        unfold is_debounce. by rewrite Hcb. }
      by rewrite Hd in Hin.
    + pose proof (processPost_frame post
                    (set_timers (drop_timer h (timers w)) (next_timer w) w)) as Hfr.
      by rewrite (f_isActive _ _ Hfr), (f_handler_calls _ _ Hfr).
Qed.

Lemma idle_run es w :
  watcher_ok w -> isActive (scraper w) = false -> forallb (fun e => negb (is_start e)) es = true ->
  isActive (scraper (run es w)) = false ∧ handler_calls (run es w) = handler_calls w.
Proof.
  revert w. induction es as [|e es IH]; intros w Hw Ha Hes; [done |].
  cbn in Hes. apply andb_true_iff in Hes as [He Hes]. apply negb_true_iff in He.
  destruct (idle_step e w Hw Ha He) as [Ha' Hc].
  change (run (e :: es) w) with (run es (step e w)).
  destruct (IH (step e w)) as [H1 H2]; [by apply step_ok | done | done |].
  split; [done | congruence].
Qed.

(** C9.  In every world the page can reach, when [stopScraper] returns no
    debounce timer is pending and no observer is connected.  From then on,
    whatever happens short of a new start, [handleMutations] is never
    called, no debounce timer appears, and a mutation batch reaches no
    callback.  On an idle scraper [stopScraper] returns the world it was
    given. *)
Theorem stop_cancels_before_fire root t0 es :
  debounce_timers (stopScraper (run es (initial_world root t0))) = []
  ∧ observing (stopScraper (run es (initial_world root t0))) = []
  ∧ isActive (scraper (stopScraper (run es (initial_world root t0)))) = false
  ∧ (∀ es', forallb (fun e => negb (is_start e)) es' = true ->
       handler_calls (run es' (stopScraper (run es (initial_world root t0))))
       = handler_calls (run es (initial_world root t0))
       ∧ debounce_timers (run es' (stopScraper (run es (initial_world root t0)))) = []
       ∧ (∀ batch,
            step (Mutations batch) (run es' (stopScraper (run es (initial_world root t0))))
            = run es' (stopScraper (run es (initial_world root t0)))))
  ∧ (∀ w, isActive (scraper w) = false -> stopScraper w = w).
Proof.
  set (w := run es (initial_world root t0)).
  assert (Hw : watcher_ok w) by apply run_ok, initial_ok.
  destruct (stopScraper_idle w Hw) as (Ha & Hd & Ho).
  pose proof (stopScraper_ok w Hw) as Hw'.
  split; [done |]. split; [done |]. split; [done |]. split.
  - intros es' Hes. destruct (idle_run es' _ Hw' Ha Hes) as [Ha' Hc].
    pose proof (run_ok es' _ Hw') as Hw''.
    destruct (wo_idle _ Hw'' Ha') as [Hd' Ho'].
    split; [| split; [done |]].
    + rewrite Hc. unfold stopScraper. destruct (isActive (scraper w)); cbn; [| done].
      destruct (observer (scraper w)); cbn; by destruct (debounceTimer (scraper w)).
    + intros batch. cbn [step]. by rewrite Ho'.
  - intros w0 Hidle. unfold stopScraper. by rewrite Hidle.
Qed.

End Watcher.

(** ** What the debounce keeps, and when ids are unique *)

Section Debounce.

Context {B : Browser}.

Lemma run_app es1 es2 w : run (es1 ++ es2) w = run es2 (run es1 w).
Proof. unfold run. apply fold_left_app. Qed.

Lemma armed_active w o : watcher_ok w -> observing w = [o] -> isActive (scraper w) = true.
Proof.
  intros Hw Ho. destruct (isActive (scraper w)) eqn:Ha; [done |].
  destruct (wo_idle _ Hw Ha) as [_ Hn]. congruence.
Qed.

Lemma burst_armed items w o :
  watcher_ok w -> observing w = [o] ->
  watcher_ok (run (burst items) w) ∧ observing (run (burst items) w) = [o].
Proof.
  revert w. induction items as [|[dt b] items IH]; intros w Hw Ho; [done |].
  change (run (burst ((dt, b) :: items)) w)
    with (run (burst items) (step (Mutations b) (step (Tick dt) w))).
  apply IH.
  - by apply step_ok, step_ok.
  - cbn [step]. assert (Ho' : observing (if 0 <=? dt then set_now (now w + dt) w else w) = [o])
      by by destruct (0 <=? dt).
    rewrite Ho'. cbn [fold_left]. by rewrite debounced_observing.
Qed.

(** After a burst only its last batch is left to be handled: the one
    pending debounce timer carries the last batch, whatever the batches
    before it held and however close together they came. *)
Lemma burst_keeps_last_batch items dt b w o :
  watcher_ok w -> observing w = [o] ->
  debounce_timers (run (burst (items ++ [(dt, b)])) w)
  = [{| timer_id := next_timer (run (burst items ++ [Tick dt]) w);
        due := now (run (burst items ++ [Tick dt]) w)
               + Z.max 0 (debounceDelay (config (scraper (run (burst items ++ [Tick dt]) w))));
        callback := HandleMutations b |}].
Proof.
  intros Hw Ho. destruct (burst_armed items w o Hw Ho) as [Hw1 Ho1].
  unfold burst. rewrite flat_map_app. fold (burst items). cbn [flat_map fst snd app].
  rewrite !run_app.
  set (w1 := run (burst items) w) in *.
  assert (Hw2 : watcher_ok (run [Tick dt] w1)) by by apply run_ok.
  assert (Ho2 : observing (run [Tick dt] w1) = [o])
    by (cbn; by destruct (0 <=? dt)).
  set (w2 := run [Tick dt] w1) in *.
  change (run [Tick dt; Mutations b] w1) with (step (Mutations b) w2).
  cbn [step]. rewrite Ho2. cbn [fold_left]. by apply debounced_timers.
Qed.

Lemma set_add_fold_app (l1 l2 acc : list Node) :
  fold_left (fun a p => set_add p a) (l1 ++ l2) acc
  = fold_left (fun a p => set_add p a) l2 (fold_left (fun a p => set_add p a) l1 acc).
Proof. apply fold_left_app. Qed.

Lemma add_matches_fold sel acc node :
  add_matches sel acc node = fold_left (fun a p => set_add p a) (matching sel node) acc.
Proof.
  unfold add_matches, matching. destruct (Nat.eqb _ _); [| done].
  rewrite set_add_fold_app. by destruct (matches sel node).
Qed.

Lemma added_nodes_fold sel nodes acc :
  fold_left (add_matches sel) nodes acc
  = fold_left (fun a p => set_add p a) (flat_map (matching sel) nodes) acc.
Proof.
  revert acc. induction nodes as [|n nodes IH]; intros acc; cbn [fold_left flat_map]; [done |].
  by rewrite set_add_fold_app, IH, add_matches_fold.
Qed.

(** [newPosts] is the list of candidates entered one by one in a set. *)
Lemma newPosts_fold sel mutations :
  newPosts sel mutations = fold_left (fun a p => set_add p a) (candidates sel mutations) [].
Proof.
  unfold newPosts, candidates. generalize (@nil Node) as acc.
  induction mutations as [|m ms IH]; intros acc; cbn [fold_left flat_map]; [done |].
  by rewrite set_add_fold_app, IH, added_nodes_fold.
Qed.

Lemma set_add_refs n acc :
  NoDup (map node_ref acc) ->
  NoDup (map node_ref (set_add n acc))
  ∧ ∀ r, In r (map node_ref (set_add n acc)) <-> r = node_ref n ∨ In r (map node_ref acc).
Proof.
  intros Hnd. unfold set_add.
  destruct (existsb _ acc) eqn:Hex.
  - split; [done |]. intros r. split; [by right |]. intros [->|]; [| done].
    apply existsb_exists in Hex as (m & Hm & Heq). apply Pos.eqb_eq in Heq as <-.
    by apply in_map.
  - assert (Hnot : ¬ In (node_ref n) (map node_ref acc)).
    { intros (m & Heq & Hm)%in_map_iff.
      assert (existsb (fun m0 => Pos.eqb (node_ref m0) (node_ref n)) acc = true);
        [| congruence].
      apply existsb_exists. exists m. split; [done |]. by apply Pos.eqb_eq. }
    rewrite map_app. cbn [map]. split.
    + apply NoDup_app. split; [done |]. split; [| apply NoDup_singleton].
      intros r Hr ->%list_elem_of_singleton. by apply Hnot, list_elem_of_In.
    + intros r. rewrite in_app_iff. cbn. intuition (subst; auto).
Qed.

Lemma set_add_fold_refs l acc :
  NoDup (map node_ref acc) ->
  NoDup (map node_ref (fold_left (fun a p => set_add p a) l acc))
  ∧ ∀ r, In r (map node_ref (fold_left (fun a p => set_add p a) l acc))
         <-> In r (map node_ref l) ∨ In r (map node_ref acc).
Proof.
  revert acc. induction l as [|n l IH]; intros acc Hnd; cbn [fold_left map].
  - split; [done |]. intros r. cbn. intuition (subst; auto).
  - destruct (set_add_refs n acc Hnd) as [Hnd' Hin].
    destruct (IH _ Hnd') as [H1 H2]. split; [done |].
    intros r. rewrite H2, Hin. cbn. intuition (subst; auto).
Qed.

(** X20.  The set handed to the loop of [handleMutations] holds the
    identity of every candidate of its own argument (each added element
    that matches the container selector and each matching descendant of an
    added element), and each node identity once. *)
Lemma newPosts_set sel mutations :
  NoDup (map node_ref (newPosts sel mutations))
  ∧ ∀ r, In r (map node_ref (newPosts sel mutations))
         <-> In r (map node_ref (candidates sel mutations)).
Proof.
  rewrite newPosts_fold.
  destruct (set_add_fold_refs (candidates sel mutations) []) as [H1 H2]; [constructor |].
  split; [done |]. intros r. rewrite H2. cbn. intuition (subst; auto).
Qed.

Lemma extractPostData_id post w pd :
  extractPostData post w = Some pd -> id pd = record_id post.
Proof.
  unfold extractPostData. intros Hx.
  destruct (querySelector _ post) as [ce|]; [| done]. cbn in Hx.
  destruct (trimmed_text _) as [t|]; [| done]. cbn in Hx.
  destruct (collect_links _) as [ls|]; [| done]. cbn in Hx.
  by injection Hx as <-.
Qed.

Lemma unique_ids_snoc store pd :
  unique_ids store ->
  (∀ p k, In p store -> id p = Some k -> id pd ≠ Some k) ->
  unique_ids (store ++ [pd]).
Proof.
  intros Hu Hnew i j p q k Hi Hj Hp Hq.
  apply lookup_app_Some in Hi as [Hi|[Hi1 Hi2]];
    apply lookup_app_Some in Hj as [Hj|[Hj1 Hj2]].
  - by eapply Hu.
  - apply list_lookup_singleton_Some in Hj2 as [_ <-].
    destruct (Hnew p k); [| done | done].
    apply list_elem_of_In. by eapply list_elem_of_lookup_2.
  - apply list_lookup_singleton_Some in Hi2 as [_ <-].
    destruct (Hnew q k); [| done | done].
    apply list_elem_of_In. by eapply list_elem_of_lookup_2.
  - apply list_lookup_singleton_Some in Hi2 as [Hi2 _].
    apply list_lookup_singleton_Some in Hj2 as [Hj2 _]. lia.
Qed.

(** X21.  The guards of [processPost] do keep ids unique as long as the
    id of the record is the [id] attribute they looked at, that is, when
    the post has an [id] or else yields no id at all; the fallback on
    [data-id] is what they do not cover. *)
Lemma processPost_keeps_ids_unique post w :
  ids_tracked w ->
  Js.truthy (reflected "id" post) = true ∨ record_id post = None ->
  ids_tracked (processPost post w).
Proof.
  intros [Hu Ht] Hid. unfold processPost, assign_border.
  destruct (dedup post (scraper w)) eqn:Hd; [done | done |].
  apply dedup_fresh in Hd as [_ Hfresh].
  assert (Hgrow : ∀ w0 : World,
    collectedData (scraper w0) = collectedData (scraper w) ->
    processedIds (scraper w) ⊆ processedIds (scraper w0) -> ids_tracked w0).
  { intros w0 Hc Hs. split; rewrite Hc; [done |]. intros p k Hp Hk.
    apply Hs. by eapply Ht. }
  assert (Hretry : ∀ w0 : World,
    collectedData (scraper w0) = collectedData (scraper w) ->
    processedIds (scraper w) ⊆ processedIds (scraper w0) ->
    ids_tracked (retry_later post w0)).
  { intros w0 Hc Hs. unfold retry_later.
    match goal with |- context [(?a <? ?b)%nat] => destruct (a <? b)%nat end;
      by apply Hgrow. }
  destruct (select MARKER post); destruct (hasStyle post).
  - match goal with |- context [extractPostData ?p ?x] =>
      destruct (extractPostData p x) as [pd|] eqn:Hx end.
    + apply extractPostData_id in Hx.
      assert (Hpd : ∀ p k, In p (collectedData (scraper w)) -> id p = Some k ->
                           id pd ≠ Some k).
      { intros p k Hp Hk. rewrite Hx. destruct Hid as [Htr|Hnone]; [| by rewrite Hnone].
        unfold record_id. rewrite Htr. intros [= <-].
        destruct Hfresh as [He|Hn]; [by rewrite He in Htr |].
        apply Hn. by eapply Ht. }
      destruct (Js.truthy (reflected "id" post)) eqn:Htr; (split; cbn;
        [by apply unique_ids_snoc |]);
        intros p k [Hp|[<-|[]]]%in_app_or Hk.
      * apply elem_of_union_r. by eapply Ht.
      * rewrite Hx in Hk. unfold record_id in Hk. rewrite Htr in Hk.
        injection Hk as <-. apply elem_of_union_l. by apply elem_of_singleton.
      * by eapply Ht.
      * destruct Hid as [|Hnone]; [done |]. congruence.
    + destruct (Js.truthy _); apply Hretry; cbn; try done; apply union_subseteq_r.
  - destruct (Js.truthy _); apply Hretry; cbn; try done; apply union_subseteq_r.
  - destruct (Js.truthy _); apply Hgrow; cbn; try done; apply union_subseteq_r.
  - destruct (Js.truthy _); apply Hretry; cbn; try done; apply union_subseteq_r.
Qed.

End Debounce.

(** ** Runs on the sample page *)

Section Runs.

Import Sample.

(** C1.  Two batches reach the armed watcher 50 ms apart, the first adds
    post [a], the second post [b]; the page then stays quiet.  The first
    timer was cleared and never fires.  The second fires and calls
    [handleMutations] once, with the second batch only: post [b] is
    collected, post [a], which the union of both batches holds, is never
    processed, and no timer is left that could still bring it. *)
Theorem debounce_drops_earlier_batch :
  let w := run (B := engine)
             [Mutations (batch [postA]); Tick 50; Mutations (batch [postB]);
              Tick 100; Fire 1; Fire 2] started in
  handler_calls w = [batch [postB]]
  ∧ newPosts (B := engine) CONTAINER (batch [postB]) = [postB]
  ∧ newPosts (B := engine) CONTAINER (batch [postA] ++ batch [postB]) = [postA; postB]
  ∧ map text (collectedData (scraper w)) = ["beta"]
  ∧ (node_ref postA ∉ processed (scraper w))
  ∧ timers w = [].
Proof.
  cbv zeta. split; [vm_compute; reflexivity |]. split; [vm_compute; reflexivity |].
  split; [vm_compute; reflexivity |]. split; [vm_compute; reflexivity |].
  split; [| vm_compute; reflexivity].
  apply (bool_decide_unpack _). vm_compute. exact I.
Qed.

(** C2.  Two posts without [id] attribute and with the same [data-id]
    arrive in one batch.  The guards of [processPost] read [post.id] only
    and let both through; [extractPostData] falls back on [data-id], so the
    store ends with two records of id [p1]. *)
Theorem same_data_id_collected_twice :
  let w := run (B := engine)
             [Mutations (batch [twinA; twinB]); Tick 100; Fire 1] started in
  reachable (B := engine) w
  ∧ map id (collectedData (scraper w)) = [Some "p1"; Some "p1"]
  ∧ ¬ unique_ids (collectedData (scraper w)).
Proof.
  cbv zeta. split; [| split].
  - exists body, 0, [Message (StartScraper (Some "txt"));
                     Mutations (batch [twinA; twinB]); Tick 100; Fire 1].
    vm_compute. reflexivity.
  - vm_compute. reflexivity.
  - intros Hu.
    assert (H : (0 = 1)%nat); [| discriminate].
    apply (Hu 0%nat 1%nat
             {| timestamp := "100"; id := Some "p1"; text := "first";
                links := []; images := [] |}
             {| timestamp := "100"; id := Some "p1"; text := "second";
                links := []; images := [] |}
             "p1"); vm_compute; reflexivity.
Qed.

(** A second post whose [id] was seen on another node is turned away at
    its first delivery and at its second: it is accepted zero times, not
    once. *)
Lemma seen_id_never_accepted :
  accept_count (B := engine) sameB
    [[Mutations (batch [sameA]); Tick 100; Fire 1]; []] started = 0%nat
  ∧ accept_count (B := engine) sameB
      [[Mutations (batch [sameA]); Tick 100; Fire 1]; []] started ≠ 1%nat.
Proof. split; [vm_compute; reflexivity | vm_compute; discriminate]. Qed.

Lemma dedup_accepts_at_most_once_witness :
  (node_ref postA ∉ processed (scraper (run (B := engine) [] started)))
  ∧ (reflected "id" postA ∉ processedIds (scraper (run (B := engine) [] started)))
  ∧ accept_count (B := engine) postA
      [[]; [Mutations (batch [postB]); Tick 100; Fire 1]] started = 1%nat.
Proof.
  assert (H1 : node_ref postA ∉ processed (scraper (run (B := engine) [] started)))
    by (apply (bool_decide_unpack _); vm_compute; exact I).
  assert (H2 : reflected "id" postA ∉ processedIds (scraper (run (B := engine) [] started)))
    by (apply (bool_decide_unpack _); vm_compute; exact I).
  split; [exact H1 |]. split; [exact H2 |].
  exact (proj1 (proj2 (proj1 (proj2
    (dedup_accepts_at_most_once (B := engine) postA
       [[Mutations (batch [postB]); Tick 100; Fire 1]] started)) [] H1 (or_intror H2)))).
Defined.

Lemma repost_skipped_and_seen_witness :
  select (B := engine) MARKER shared ≠ []
  ∧ collectedData (scraper (processPost (B := engine) shared started))
    = collectedData (scraper started)
  ∧ accepted shared (scraper (processPost (B := engine) shared started)) = false.
Proof.
  assert (H1 : select (B := engine) MARKER shared ≠ []) by (vm_compute; discriminate).
  split; [exact H1 |].
  pose proof (repost_skipped_and_seen (B := engine) shared started H1) as (Hs & Ha & _).
  split; [exact Hs | exact Ha].
Defined.

Lemma start_when_active_is_noop_witness :
  isActive (scraper started) = true
  ∧ startScraper (B := engine) started = started.
Proof.
  assert (H1 : isActive (scraper started) = true) by (vm_compute; reflexivity).
  split; [exact H1 |].
  exact (proj1 (start_when_active_is_noop (B := engine) started H1)).
Defined.

Lemma stop_cancels_before_fire_witness :
  forallb (fun e => negb (is_start e))
    [Tick 100; Fire 1%positive; Mutations (batch [postB]); Tick 200; Fire 2%positive] = true
  ∧ handler_calls
      (run (B := engine)
         [Tick 100; Fire 1%positive; Mutations (batch [postB]); Tick 200; Fire 2%positive]
         (stopScraper
            (run (B := engine)
               [Message (StartScraper (Some "txt")); Mutations (batch [postA]); Tick 50]
               (initial_world body 0))))
    = handler_calls
        (run (B := engine)
           [Message (StartScraper (Some "txt")); Mutations (batch [postA]); Tick 50]
           (initial_world body 0)).
Proof.
  assert (H1 : forallb (fun e => negb (is_start e))
    [Tick 100; Fire 1%positive; Mutations (batch [postB]); Tick 200; Fire 2%positive] = true)
    by reflexivity.
  split; [exact H1 |].
  exact (proj1 (proj1 (proj2 (proj2 (proj2
    (stop_cancels_before_fire (B := engine) body 0
       [Message (StartScraper (Some "txt")); Mutations (batch [postA]); Tick 50]))))
    _ H1)).
Defined.

(** The three selectors of the start scenario. *)
Lemma start_selector_scenarios :
  contentSelector (config (scraper (fst
    (handleMessage (B := engine) (StartScraper (Some "foo")) (initial_world body 0)))))
  = ".foo"
  ∧ contentSelector (config (scraper (fst
      (handleMessage (B := engine) (StartScraper (Some ".bar")) (initial_world body 0)))))
    = ".bar"
  ∧ handleMessage (B := engine) (StartScraper (Some "bar.baz")) (initial_world body 0)
    = (initial_world body 0, Some INVALID).
Proof.
  split; [vm_compute; reflexivity |]. split; vm_compute; reflexivity.
Qed.

End Runs.

(** ** Invariants of the reachable worlds *)

Section Invariants.

Context {B : Browser}.

Lemma startScraper_arm w :
  startScraper w
  = if isActive (scraper w) then w
    else arm (processExistingPosts (on_scraper (set_isActive true) w)).
Proof. reflexivity. Qed.

Lemma closed_processPosts I posts w : closed I -> I w -> I (processPosts posts w).
Proof.
  intros HI. revert w. induction posts as [|p posts IH]; intros w Hw; cbn; [done |].
  by apply IH, (cl_processPost I HI).
Qed.

Lemma closed_startScraper I w : closed I -> I w -> I (startScraper w).
Proof.
  intros HI Hw. rewrite startScraper_arm. destruct (isActive (scraper w)); [done |].
  apply (cl_arm I HI). unfold processExistingPosts.
  destruct (document_querySelectorAll _ _).
  - by apply closed_processPosts, (cl_activate I HI).
  - by apply (cl_activate I HI).
Qed.

Lemma closed_handleMutations I mutations w :
  closed I -> I w -> I (handleMutations mutations w).
Proof.
  intros HI Hw. unfold handleMutations. destruct (selector_valid _).
  - by apply closed_processPosts, (cl_calls I HI).
  - by apply (cl_calls I HI).
Qed.

Lemma closed_deliver I mutations (obs : list positive) w :
  closed I -> I w ->
  I (fold_left (fun w' _ => debouncedMutationHandler mutations w') obs w).
Proof.
  intros HI. revert w. induction obs as [|o obs IH]; intros w Hw; cbn [fold_left]; [done |].
  by apply IH, (cl_debounce I HI).
Qed.

Lemma closed_step I e w : closed I -> I w -> I (step e w).
Proof.
  intros HI Hw. destruct e as [request| |batch|dt|h|root]; cbn [step].
  - destruct request as [[sel|]| | | | |]; cbn [handleMessage fst]; try done.
    + destruct (Js.indexOf "." sel =? -1); [| destruct (Js.indexOf "." sel =? 0)];
        cbn [fst]; try done; by apply closed_startScraper, (cl_assign I HI).
    + by apply (cl_stop I HI).
    + unfold downloadData. destruct (collectedData (scraper w)); cbn [fst]; [done |].
      by apply (cl_download I HI).
    + by apply (cl_clean I HI).
  - by apply closed_startScraper.
  - by apply closed_deliver.
  - destruct (0 <=? dt); [by apply (cl_tick I HI) | done].
  - destruct (find_timer h (timers w)) as [t|]; [| done].
    destruct (due t <=? now w); [| done].
    destruct (callback t) as [mutations|post]; cbn [run_callback].
    + by apply closed_handleMutations, (cl_drop I HI).
    + by apply (cl_processPost I HI), (cl_drop I HI).
  - by apply (cl_document I HI).
Qed.

Lemma closed_run I es w : closed I -> I w -> I (run es w).
Proof.
  intros HI. revert w. induction es as [|e es IH]; intros w Hw; cbn; [done |].
  by apply IH, closed_step.
Qed.

Lemma closed_reachable I w :
  closed I -> (∀ root t0, I (initial_world root t0)) -> reachable w -> I w.
Proof. intros HI H0 (root & t0 & es & ->). by apply closed_run. Qed.

Lemma reachable_watcher_ok w : reachable w -> watcher_ok w.
Proof. intros (root & t0 & es & ->). apply run_ok, initial_ok. Qed.

Lemma reachable_run es w : reachable w -> reachable (run es w).
Proof.
  intros (root & t0 & es0 & ->). exists root, t0, (es0 ++ es)%list. by rewrite run_app.
Qed.

End Invariants.

(** ** Timer handles *)

Lemma ids_drop h l n :
  NoDup (map timer_id l) ∧ (∀ t, In t l -> (timer_id t < n)%positive) ->
  NoDup (map timer_id (drop_timer h l))
  ∧ (∀ t, In t (drop_timer h l) -> (timer_id t < n)%positive).
Proof.
  intros [Hnd Hlt]. split.
  - clear Hlt. induction l as [|a l IH]; [done |]. cbn in *.
    apply NoDup_cons in Hnd as [Ha Hnd]. destruct (negb (Pos.eqb (timer_id a) h)); cbn; [| by apply IH].
    apply NoDup_cons. split; [| by apply IH].
    intros Hin. apply Ha. apply list_elem_of_In in Hin. apply list_elem_of_In.
    apply in_map_iff in Hin as (t & Ht & [Hin _]%List.filter_In).
    apply in_map_iff. by exists t.
  - intros t [Hin _]%List.filter_In. by apply Hlt.
Qed.

Lemma ids_add l n t :
  NoDup (map timer_id l) ∧ (∀ t', In t' l -> (timer_id t' < n)%positive) ->
  timer_id t = n ->
  NoDup (map timer_id (l ++ [t]))
  ∧ (∀ t', In t' (l ++ [t]) -> (timer_id t' < Pos.succ n)%positive).
Proof.
  intros [Hnd Hlt] Hid. split.
  - rewrite map_app. cbn. apply NoDup_app. split; [done |]. split; [| apply NoDup_singleton].
    intros i Hi ->%list_elem_of_singleton. apply list_elem_of_In in Hi.
    apply in_map_iff in Hi as (t' & Ht' & Hin). specialize (Hlt t' Hin). lia.
  - intros t' [Hin|[<-|[]]]%in_app_or; [specialize (Hlt t' Hin) |]; lia.
Qed.

(** With distinct handles, looking up the handle of a pending timer finds
    that timer. *)
Lemma find_timer_unique l t :
  NoDup (map timer_id l) -> In t l -> find_timer (timer_id t) l = Some t.
Proof.
  induction l as [|a l IH]; intros Hnd Hin; [done |]. cbn in *.
  apply NoDup_cons in Hnd as [Ha Hnd]. destruct Hin as [->|Hin].
  - by rewrite Pos.eqb_refl.
  - destruct (Pos.eqb_spec (timer_id a) (timer_id t)) as [Heq|_]; [| by apply IH].
    destruct Ha. rewrite Heq. apply list_elem_of_In. by apply in_map.
Qed.

Section Handles.

Context {B : Browser}.

Lemma timers_unique_closed : closed timers_unique.
Proof.
  split; try (intros; assumption).
  - intros post w Hw. processPost_cases post w; try exact Hw;
      unfold timers_unique; cbn; by apply ids_add.
  - intros w Hw. unfold stopScraper. destruct (isActive (scraper w)); cbn; [| done].
    destruct (observer (scraper w)); cbn; destruct (debounceTimer (scraper w)); cbn;
      first [exact Hw | by apply ids_drop].
  - intros mutations w Hw. unfold debouncedMutationHandler, timers_unique.
    destruct (debounceTimer (scraper w)); cbn; apply ids_add; try done. by apply ids_drop.
  - intros h w Hw. by apply ids_drop.
Qed.

Lemma reachable_timers_unique w : reachable w -> timers_unique w.
Proof.
  apply closed_reachable; [apply timers_unique_closed |].
  intros root t0. split; cbn; [constructor | done].
Qed.

End Handles.

(** ** Trimming *)

Section Strip.

Variable two : ascii -> ascii -> bool.
Variable three : ascii -> ascii -> ascii -> bool.

Lemma strip_unheaded l : white_head two three l = false -> Js.strip two three l = l.
Proof.
  destruct l as [|c1 [|c2 [|c3 r]]]; cbn; try done.
  - by destruct (Js.is_space c1).
  - by destruct (Js.is_space c1), (two c1 c2).
  - by destruct (Js.is_space c1), (two c1 c2), (three c1 c2 c3).
Qed.

Lemma headed_app l z : white_head two three l = true -> white_head two three (l ++ z)%list = true.
Proof.
  destruct l as [|c1 [|c2 [|c3 r]]]; cbn; try done.
  - by destruct (Js.is_space c1).
  - by destruct (Js.is_space c1), (two c1 c2).
Qed.

Lemma strip_spec n l :
  (length l ≤ n)%nat ->
  white_head two three (Js.strip two three l) = false
  ∧ ∃ z, l = (z ++ Js.strip two three l)%list.
Proof.
  revert l. induction n as [|n IH]; intros l Hn.
  { destruct l; [| cbn in Hn; lia]. split; [done | by exists []]. }
  destruct l as [|c1 r1]; [split; [done | by exists []] |].
  cbn [length] in Hn. cbn [Js.strip].
  destruct (Js.is_space c1) eqn:H1.
  { destruct (IH r1) as [Hh [z Hz]]; [lia |]. split; [done |].
    exists (c1 :: z). by rewrite Hz at 1. }
  destruct r1 as [|c2 r2].
  { split; [cbn; by rewrite H1 | by exists []]. }
  cbn [length] in Hn. destruct (two c1 c2) eqn:H2.
  { destruct (IH r2) as [Hh [z Hz]]; [lia |]. split; [done |].
    exists (c1 :: c2 :: z). by rewrite Hz at 1. }
  destruct r2 as [|c3 r3].
  { split; [cbn; by rewrite H1, H2 | by exists []]. }
  cbn [length] in Hn. destruct (three c1 c2 c3) eqn:H3.
  { destruct (IH r3) as [Hh [z Hz]]; [lia |]. split; [done |].
    exists (c1 :: c2 :: c3 :: z). by rewrite Hz at 1. }
  split; [cbn; by rewrite H1, H2, H3 | by exists []].
Qed.

Lemma strip_idem l : Js.strip two three (Js.strip two three l) = Js.strip two three l.
Proof. apply strip_unheaded. by destruct (strip_spec (length l) l). Qed.

Lemma strip_of_prefix l e z :
  white_head two three l = false -> l = (e ++ z)%list -> Js.strip two three e = e.
Proof.
  intros Hl ->. apply strip_unheaded. destruct (white_head two three e) eqn:He; [| done].
  by rewrite (headed_app e z He) in Hl.
Qed.

Lemma stripped_unheaded l : white_head two three (Js.strip two three l) = false.
Proof. by destruct (strip_spec (length l) l). Qed.

Lemma strip_suffix l : ∃ z, l = (z ++ Js.strip two three l)%list.
Proof. by destruct (strip_spec (length l) l) as [_ ?]. Qed.

End Strip.

Lemma trim_bytes_idem l : Js.trim_bytes (Js.trim_bytes l) = Js.trim_bytes l.
Proof.
  unfold Js.trim_bytes, Js.strip_start, Js.strip_reversed.
  set (y := Js.strip Js.is_space2 Js.is_space3 l).
  set (R := Js.strip (fun c1 c2 => Js.is_space2 c2 c1) (fun c1 c2 c3 => Js.is_space3 c3 c2 c1)).
  destruct (strip_suffix (fun c1 c2 => Js.is_space2 c2 c1)
              (fun c1 c2 c3 => Js.is_space3 c3 c2 c1) (rev y)) as [z Hz].
  fold R in Hz.
  assert (Hy : y = (rev (R (rev y)) ++ rev z)%list).
  { rewrite <- rev_app_distr, <- Hz. by rewrite rev_involutive. }
  rewrite (strip_of_prefix Js.is_space2 Js.is_space3 y (rev (R (rev y))) (rev z));
    [| apply stripped_unheaded | done].
  rewrite rev_involutive. unfold R. by rewrite strip_idem.
Qed.

Lemma trim_as_bytes s :
  Js.trim s = string_of_list_ascii (Js.trim_bytes (list_ascii_of_string s)).
Proof.
  unfold Js.trim, Js.trimEnd, Js.trimStart, Js.trim_bytes.
  by rewrite list_ascii_of_string_of_list_ascii.
Qed.

(** White space of one, two and three bytes is taken from both ends, and
    only there. *)
Lemma trim_padded : Js.trim Cases.padded = "alpha beta".
Proof. vm_compute. reflexivity. Qed.

(** Trimming what is trimmed changes nothing. *)
Lemma trim_idem s : Js.trim (Js.trim s) = Js.trim s.
Proof.
  rewrite !trim_as_bytes, list_ascii_of_string_of_list_ascii. by rewrite trim_bytes_idem.
Qed.

(** ** What [processPost] keeps *)

Section Kept.

Context {B : Browser}.

Lemma retries_seen_closed : closed retries_seen.
Proof.
  split; try (intros; assumption).
  - intros post w Hw. processPost_cases post w; try exact Hw;
      intros tm q Hin Hcb; cbn in *;
      try (apply elem_of_union_r; by eapply Hw);
      (apply in_app_or in Hin as [Hin|[<-|[]]];
       [ apply elem_of_union_r; by eapply Hw
       | injection Hcb as <-; apply elem_of_union_l; by apply elem_of_singleton ]).
  - intros w Hw. unfold stopScraper. destruct (isActive (scraper w)); cbn; [| done].
    destruct (observer (scraper w)); cbn; destruct (debounceTimer (scraper w)); cbn;
      try exact Hw; intros tm q [Hin _]%List.filter_In Hcb; by eapply Hw.
  - intros mutations w Hw. unfold debouncedMutationHandler.
    destruct (debounceTimer (scraper w)); cbn; intros tm q Hin Hcb; cbn in *;
      apply in_app_or in Hin as [Hin|[<-|[]]]; try done.
    + apply List.filter_In in Hin as [Hin _]. by eapply Hw.
    + by eapply Hw.
  - intros h w Hw t p [Hin _]%List.filter_In Hcb. by eapply Hw.
Qed.

Lemma budget_ok_closed : closed budget_ok.
Proof.
  split; try (intros; assumption).
  - intros post w (H1 & H2 & H3 & H4 & H5).
    processPost_cases post w; unfold budget_ok; cbn; repeat split; try done; try lia.
    all: apply Nat.ltb_lt in Hbudget; cbn in Hbudget; lia.
  - intros w Hw. unfold stopScraper. destruct (isActive (scraper w)); cbn; [| done].
    destruct (observer (scraper w)); cbn; by destruct (debounceTimer (scraper w)).
  - intros mutations w Hw. unfold debouncedMutationHandler.
    by destruct (debounceTimer (scraper w)).
Qed.

Lemma fresh_size post s :
  dedup post s = Fresh -> size ({[node_ref post]} ∪ processed s) = S (size (processed s)).
Proof.
  intros [Hn _]%dedup_fresh. rewrite size_union; [by rewrite size_singleton |].
  by apply disjoint_singleton_l.
Qed.

Lemma store_bounded_closed : closed store_bounded.
Proof.
  split; try (intros; assumption).
  - intros post w Hw. pose proof (fresh_size post (scraper w)) as Hsize.
    unfold store_bounded in *.
    processPost_cases post w; try exact Hw; cbn; rewrite ?length_app, Hsize by done;
      cbn; lia.
  - intros w Hw. unfold stopScraper. destruct (isActive (scraper w)); cbn; [| done].
    destruct (observer (scraper w)); cbn; by destruct (debounceTimer (scraper w)).
  - intros w _. unfold store_bounded. cbn. lia.
  - intros mutations w Hw. unfold debouncedMutationHandler.
    by destruct (debounceTimer (scraper w)).
Qed.

Lemma borders_insert (X : gset positive) (m : gmap positive string) r v0 :
  v0 = RED ∨ v0 = GREEN ->
  (∀ r' v, m !! r' = Some v -> r' ∈ X ∧ (v = RED ∨ v = GREEN)) ->
  ∀ r' v, <[r := v0]> m !! r' = Some v -> r' ∈ {[r]} ∪ X ∧ (v = RED ∨ v = GREEN).
Proof.
  intros Hv Hm r' v. destruct (decide (r = r')) as [<-|Hne].
  - rewrite lookup_insert_eq. intros [= <-]. split; [| done].
    apply elem_of_union_l. by apply elem_of_singleton.
  - rewrite lookup_insert_ne by done. intros [Hin Hc]%Hm. split; [| done].
    by apply elem_of_union_r.
Qed.

Lemma borders_grow (X : gset positive) (m : gmap positive string) r :
  (∀ r' v, m !! r' = Some v -> r' ∈ X ∧ (v = RED ∨ v = GREEN)) ->
  ∀ r' v, m !! r' = Some v -> r' ∈ {[r]} ∪ X ∧ (v = RED ∨ v = GREEN).
Proof.
  intros Hm r' v [Hin Hc]%Hm. split; [| done]. by apply elem_of_union_r.
Qed.

Lemma borders_ok_closed : closed borders_ok.
Proof.
  split; try (intros; assumption).
  - intros post w Hw. unfold borders_ok in *.
    processPost_cases post w; try exact Hw; cbn;
      first [apply borders_insert; [auto | exact Hw] | by apply borders_grow].
  - intros w Hw. unfold stopScraper. destruct (isActive (scraper w)); cbn; [| done].
    destruct (observer (scraper w)); cbn; by destruct (debounceTimer (scraper w)).
  - intros mutations w Hw. unfold debouncedMutationHandler.
    by destruct (debounceTimer (scraper w)).
Qed.

Lemma collect_links_trimmed l ls :
  collect_links l = Some ls ->
  Forall (fun k => Js.trim (link_text k) = link_text k) ls.
Proof.
  revert ls. induction l as [|a l IH]; intros ls Hl; cbn in Hl.
  - injection Hl as <-. constructor.
  - unfold trimmed_text in Hl. destruct (innerText a) as [t|]; [| done]. cbn in Hl.
    destruct (collect_links l) as [r|]; [| done]. cbn in Hl. injection Hl as <-.
    constructor; [apply trim_idem | by apply IH].
Qed.

Lemma record_id_not_empty post : record_id post ≠ Some EmptyString.
Proof.
  unfold record_id. destruct (reflected "id" post) as [|c i]; cbn.
  - destruct (getAttribute "data-id" post) as [[|c d]|]; cbn; congruence.
  - congruence.
Qed.

(** What [extractPostData] returns when it returns. *)
Lemma extractPostData_good post w pd :
  extractPostData post w = Some pd -> good_record pd.
Proof.
  unfold extractPostData. intros Hx.
  destruct (querySelector _ post) as [ce|]; [| done]. cbn in Hx.
  unfold trimmed_text in Hx at 1.
  destruct (innerText (default post ce)) as [t|]; [| done]. cbn in Hx.
  destruct (collect_links _) as [ls|] eqn:Hls; [| done]. cbn in Hx.
  injection Hx as <-. split; cbn; [apply record_id_not_empty |].
  split; [apply trim_idem | by eapply collect_links_trimmed].
Qed.

Lemma records_ok_closed : closed records_ok.
Proof.
  split; try (intros; assumption).
  - intros post w Hw. unfold records_ok in *.
    processPost_cases post w; try exact Hw; cbn;
      apply Forall_app; (split; [done |]); apply Forall_singleton;
      by eapply extractPostData_good.
  - intros w Hw. unfold stopScraper. destruct (isActive (scraper w)); cbn; [| done].
    destruct (observer (scraper w)); cbn; by destruct (debounceTimer (scraper w)).
  - intros w _. constructor.
  - intros mutations w Hw. unfold debouncedMutationHandler.
    by destruct (debounceTimer (scraper w)).
Qed.

End Kept.

(** ** Further properties of the collection engine *)

Lemma NoDup_ids_filter (f : Timer -> bool) l :
  NoDup (map timer_id l) -> NoDup (map timer_id (List.filter f l)).
Proof.
  induction l as [|a l IH]; [done |]. cbn. intros [Ha Hnd]%NoDup_cons.
  destruct (f a); cbn; [| by apply IH]. apply NoDup_cons. split; [| by apply IH].
  intros Hin. apply Ha. apply list_elem_of_In in Hin. apply list_elem_of_In.
  apply in_map_iff in Hin as (t & Ht & [Hin _]%List.filter_In).
  apply in_map_iff. by exists t.
Qed.

Section Further.

Context {B : Browser}.

(** X1.  A node is the same node when its identity is the same, whatever
    has become of its attributes.  Once [processPost] has run on a node
    and did not turn it away at the id guard, every later call on that
    node returns at the guards and changes nothing, whatever happened to
    the page and to the node in between: a mutation batch that brings it
    again, a new scan after stop and start, a cleared store, the retry
    scheduled by the [catch] block.  A node that was turned away at the id
    guard is in no set; it is turned away again as long as its [id]
    attribute is what it was. *)
Theorem later_delivery_changes_nothing post post' w es :
  node_ref post' = node_ref post ->
  dedup post (scraper w) ≠ SeenId ∨ reflected "id" post' = reflected "id" post ->
  processPost post' (run es (processPost post w)) = run es (processPost post w).
Proof.
  intros Href Hcase. apply processPost_rejected.
  pose proof (run_grows es (processPost post w)) as [Hp Hi].
  assert (Hnode : node_ref post ∈ processed (scraper (processPost post w)) ->
                  accepted post' (scraper (run es (processPost post w))) = false).
  { intros Hin. unfold accepted. rewrite dedup_seen_node; [done |].
    rewrite Href. by apply Hp. }
  destruct (dedup post (scraper w)) eqn:Hd.
  - apply Hnode. unfold processPost. rewrite Hd. revert Hd. unfold dedup.
    case_bool_decide; [done |]. by destruct (_ && _).
  - destruct Hcase as [|Hid]; [done |].
    assert (Hseen : accepted post (scraper (run es (processPost post w))) = false).
    { eapply rejected_stays; [by split | apply processPost_seen]. }
    revert Hseen. unfold accepted, dedup. by rewrite Href, Hid.
  - apply Hnode, processPost_marks. unfold accepted. by rewrite Hd.
Qed.

(** X2.  No event takes anything out of the dedup index: both the set of
    seen nodes and the set of seen ids only grow along any run, across
    stop, start and clear. *)
Theorem dedup_index_never_forgets es w :
  processed (scraper w) ⊆ processed (scraper (run es w))
  ∧ processedIds (scraper w) ⊆ processedIds (scraper (run es w)).
Proof. apply run_grows. Qed.

(** X3.  In every reachable world a pending retry is for a node already
    in [processed], so when its timer fires [processPost] returns at once:
    all the firing does is use up the timer.  The retry never extracts. *)
Theorem retry_never_extracts w h t post :
  reachable w ->
  find_timer h (timers w) = Some t ->
  callback t = RetryPost post ->
  node_ref post ∈ processed (scraper w)
  ∧ step (Fire h) w
    = if due t <=? now w
      then set_timers (drop_timer h (timers w)) (next_timer w) w
      else w.
Proof.
  intros Hr Hf Hcb.
  assert (Hseen : node_ref post ∈ processed (scraper w)).
  { assert (Hs : retries_seen w).
    { apply closed_reachable; [apply retries_seen_closed | | done].
      by intros root t0 t' p []. }
    eapply Hs; [by eapply find_timer_In | done]. }
  split; [done |]. cbn [step]. rewrite Hf. destruct (due t <=? now w); [| done].
  rewrite Hcb. cbn [run_callback]. apply processPost_rejected.
  unfold accepted. by rewrite dedup_seen_node.
Qed.

(** X4.  In every reachable world the configuration apart from the
    content selector is the one of the constructor and the retry counter
    is at most [maxRetries], which is 3.  When the counter has reached it,
    [processPost] schedules nothing, whatever the node and whether its
    extraction fails or not. *)
Theorem retry_budget_kept w :
  reachable w ->
  budget_ok w
  ∧ (∀ post, retryCount (scraper w) = 3%nat ->
       timers (processPost post w) = timers w).
Proof.
  intros Hr.
  assert (Hb : budget_ok w).
  { apply closed_reachable; [apply budget_ok_closed | | done].
    intros root t0. unfold budget_ok. cbn. repeat split; lia. }
  split; [done |]. intros post Hc. destruct Hb as (_ & _ & Hmax & _ & _).
  processPost_cases post w; try done.
  all: apply Nat.ltb_lt in Hbudget; cbn in Hbudget; lia.
Qed.

(** X6.  In every reachable world the store holds at most as many records
    as there are nodes in [processed]: a node yields at most one record. *)
Theorem store_never_exceeds_seen w :
  reachable w ->
  (length (collectedData (scraper w)) ≤ size (processed (scraper w)))%nat.
Proof.
  intros Hr. apply (closed_reachable store_bounded w store_bounded_closed); [| done].
  intros root t0. unfold store_bounded. cbn. lia.
Qed.

(** X7.  In every reachable world only nodes in [processed] have been
    given a border, and the border is the red or the green one.  A node
    that passes the guards and has a [style] gets the red border when it
    holds the repost marker and the green one otherwise; a node that
    passes the guards and has no [style] is put in [processed] and gets no
    border, the assignment having thrown. *)
Theorem borders_follow_processed w :
  reachable w ->
  (∀ r v, borders w !! r = Some v ->
          r ∈ processed (scraper w) ∧ (v = RED ∨ v = GREEN))
  ∧ (∀ post, accepted post (scraper w) = true -> hasStyle post = true ->
       borders (processPost post w) !! node_ref post
       = Some (match select MARKER post with [] => GREEN | _ => RED end))
  ∧ (∀ post, accepted post (scraper w) = true -> hasStyle post = false ->
       borders (processPost post w) = borders w
       ∧ node_ref post ∈ processed (scraper (processPost post w))).
Proof.
  intros Hr. split; [| split].
  - apply (closed_reachable borders_ok w borders_ok_closed); [| done].
    intros root t0 r' v'. cbn. by rewrite lookup_empty.
  - intros post. unfold accepted.
    processPost_cases post w; try done; intros _ _; cbn; try apply lookup_insert_eq;
      done.
  - intros post Ha Hs. split; [| by apply processPost_marks].
    revert Ha Hs. unfold accepted.
    processPost_cases post w; try done; intros _ Hst; by try done.
Qed.

(** X16.  Every record of a reachable store is as [extractPostData] makes
    them: its id is absent or a non-empty text, never the empty text; its
    text and the text of each of its links are trimmed. *)
Theorem records_well_formed w pd :
  reachable w ->
  In pd (collectedData (scraper w)) ->
  id pd ≠ Some EmptyString
  ∧ Js.trim (text pd) = text pd
  ∧ Forall (fun l => Js.trim (link_text l) = link_text l) (links pd).
Proof.
  intros Hr Hin.
  assert (Hok : records_ok w).
  { apply closed_reachable; [apply records_ok_closed | | done]. intros root t0. constructor. }
  unfold records_ok in Hok. rewrite List.Forall_forall in Hok. by apply Hok.
Qed.

(** X9.  In every reachable world at most one debounce timer is pending,
    and no two pending timers share a handle. *)
Theorem one_debounce_timer_at_most w :
  reachable w ->
  (length (debounce_timers w) ≤ 1)%nat ∧ NoDup (map timer_id (timers w)).
Proof.
  intros Hr. destruct (reachable_timers_unique w Hr) as [Hnd _].
  split; [| done].
  pose proof (reachable_watcher_ok w Hr) as [Ht _ _].
  pose proof (NoDup_ids_filter is_debounce (timers w) Hnd) as Hnd'.
  unfold debounce_timers in *.
  destruct (List.filter is_debounce (timers w)) as [|t1 [|t2 l]]; cbn; try lia.
  exfalso.
  assert (H1 : debounceTimer (scraper w) = Some (timer_id t1)) by (apply Ht; by left).
  assert (H2 : debounceTimer (scraper w) = Some (timer_id t2)) by (apply Ht; right; by left).
  cbn in Hnd'. apply NoDup_cons in Hnd' as [Hnot _]. apply Hnot.
  rewrite H1 in H2. injection H2 as ->. by left.
Qed.

End Further.

(** ** The store along the events *)

Lemma store_extends_same n w w' :
  collectedData (scraper w') = collectedData (scraper w) -> store_extends n w w'.
Proof. intros Heq. exists []. rewrite app_nil_r. split; [done | cbn; lia]. Qed.

Lemma store_extends_trans n m w1 w2 w3 :
  store_extends n w1 w2 -> store_extends m w2 w3 -> store_extends (n + m) w1 w3.
Proof.
  intros (l1 & H1 & Hl1) (l2 & H2 & Hl2). exists (l1 ++ l2)%list.
  rewrite H2, H1, <- app_assoc, length_app. split; [done | lia].
Qed.

Lemma store_extends_more n m w w' :
  (n ≤ m)%nat -> store_extends n w w' -> store_extends m w w'.
Proof. intros Hle (l & H & Hl). exists l. split; [done | lia]. Qed.

Section Store.

Context {B : Browser}.

Lemma processPost_store post w : store_extends 1 w (processPost post w).
Proof.
  processPost_cases post w; try (by apply store_extends_same);
    exists [pd]; cbn; split; done.
Qed.

Lemma processPosts_store posts w : store_extends (length posts) w (processPosts posts w).
Proof.
  revert w. induction posts as [|p posts IH]; intros w; cbn [processPosts fold_left length].
  - by apply store_extends_same.
  - change (S (length posts)) with (1 + length posts)%nat.
    eapply store_extends_trans; [apply processPost_store | apply IH].
Qed.

Lemma startScraper_store w : ∃ n, store_extends n w (startScraper w).
Proof.
  rewrite startScraper_arm. destruct (isActive (scraper w)).
  - exists 0%nat. by apply store_extends_same.
  - unfold processExistingPosts. destruct (document_querySelectorAll _ _) as [posts|].
    + exists (length posts). destruct (processPosts_store posts (on_scraper (set_isActive true) w))
        as (new & Hnew & Hlen). by exists new.
    + exists 0%nat. by apply store_extends_same.
Qed.

Lemma deliver_store mutations (obs : list positive) w :
  collectedData (scraper (fold_left (fun w' _ => debouncedMutationHandler mutations w') obs w))
  = collectedData (scraper w).
Proof.
  revert w. induction obs as [|o obs IH]; intros w; cbn [fold_left]; [done |].
  by rewrite IH, debounced_scraper.
Qed.

Lemma downloadData_scraper w : scraper (fst (downloadData w)) = scraper w.
Proof. unfold downloadData. by destruct (collectedData (scraper w)). Qed.

(** X5.  The store is append-only: whatever the event, short of the
    [cleanData] message, the records already collected stay where they
    are, in their order, and new ones come after them. *)
Theorem store_only_grows e w :
  e ≠ Message CleanData ->
  ∃ new, collectedData (scraper (step e w)) = (collectedData (scraper w) ++ new)%list.
Proof.
  intros He.
  assert (Hs : ∃ n, store_extends n w (step e w)); [| by destruct Hs as (n & new & Hnew & _); exists new].
  destruct e as [request| |batch|dt|h|root]; cbn [step].
  - destruct request as [[sel|]| | | | |]; cbn [handleMessage fst]; try done;
      try (exists 0%nat; by apply store_extends_same).
    + destruct (Js.indexOf "." sel =? -1); [| destruct (Js.indexOf "." sel =? 0)];
        cbn [fst]; try (exists 0%nat; by apply store_extends_same).
      * destruct (startScraper_store (assign_contentSelector ("." ++ sel) w)) as (n & new & Hnew & Hlen).
        exists n, new. done.
      * destruct (startScraper_store (assign_contentSelector sel w)) as (n & new & Hnew & Hlen).
        exists n, new. done.
    + exists 0%nat. apply store_extends_same. unfold stopScraper.
      destruct (isActive (scraper w)); cbn; [| done].
      destruct (observer (scraper w)); cbn; by destruct (debounceTimer (scraper w)).
    + exists 0%nat. apply store_extends_same.
      pose proof (downloadData_scraper w) as Hs.
      destruct (downloadData w) as [w1 ok]. cbn in *. by rewrite Hs.
  - apply startScraper_store.
  - exists 0%nat. apply store_extends_same, deliver_store.
  - exists 0%nat. apply store_extends_same. by destruct (0 <=? dt).
  - destruct (find_timer h (timers w)) as [t|]; [| exists 0%nat; by apply store_extends_same].
    destruct (due t <=? now w); [| exists 0%nat; by apply store_extends_same].
    destruct (callback t) as [mutations|post]; cbn [run_callback].
    + unfold handleMutations. destruct (selector_valid _); cbn.
      * eexists. eapply store_extends_trans; [| apply processPosts_store].
        by apply (store_extends_same 0).
      * exists 0%nat. by apply store_extends_same.
    + exists 1%nat.
      destruct (processPost_store post (set_timers (drop_timer h (timers w)) (next_timer w) w))
        as (new & Hnew & Hlen). by exists new.
  - exists 0%nat. by apply store_extends_same.
Qed.






End Store.

(** ** The observer and the debounce, in general *)

Lemma armed_same w w' :
  isActive (scraper w') = isActive (scraper w) ->
  observing w' = observing w ->
  observer (scraper w') = observer (scraper w) ->
  armed_ok w -> armed_ok w'.
Proof. unfold armed_ok. by intros -> -> ->. Qed.

Section Armed.

Context {B : Browser}.

Lemma frame_armed w w' : frame w w' -> armed_ok w -> armed_ok w'.
Proof. intros []. by apply armed_same. Qed.

Lemma startScraper_armed w : armed_ok w -> armed_ok (startScraper w).
Proof.
  intros Hw. rewrite startScraper_arm. destruct (isActive (scraper w)) eqn:Ha; [done |].
  unfold armed_ok in Hw. rewrite Ha in Hw. destruct Hw as [Ho _].
  pose proof (processExistingPosts_frame (on_scraper (set_isActive true) w)) as Hf.
  unfold armed_ok, arm. cbn. rewrite (f_isActive _ _ Hf), (f_observing _ _ Hf). cbn.
  rewrite Ho. by eexists.
Qed.

Lemma stopScraper_armed w : armed_ok w -> armed_ok (stopScraper w).
Proof.
  intros Hw. unfold stopScraper. destruct (isActive (scraper w)) eqn:Ha; cbn; [| done].
  unfold armed_ok in Hw. rewrite Ha in Hw. destruct Hw as (o & Ho & Hobs).
  rewrite Hobs. unfold armed_ok. cbn.
  destruct (debounceTimer (scraper w)); cbn; rewrite Ho; cbn; by rewrite Pos.eqb_refl.
Qed.

Lemma deliver_armed mutations (obs : list positive) w :
  armed_ok w ->
  armed_ok (fold_left (fun w' _ => debouncedMutationHandler mutations w') obs w).
Proof.
  revert w. induction obs as [|o obs IH]; intros w Hw; cbn [fold_left]; [done |].
  apply IH. eapply armed_same; [| | | exact Hw];
    by rewrite ?debounced_scraper, ?debounced_observing.
Qed.

Lemma step_armed e w : armed_ok w -> armed_ok (step e w).
Proof.
  intros Hw. destruct e as [request| |batch|dt|h|root]; cbn [step].
  - destruct request as [[sel|]| | | | |]; cbn [handleMessage fst]; try done.
    + destruct (Js.indexOf "." sel =? -1); [| destruct (Js.indexOf "." sel =? 0)];
        cbn [fst]; try done; apply startScraper_armed; by apply (armed_same w).
    + by apply stopScraper_armed.
    + pose proof (downloadData_scraper w) as Hs. unfold downloadData in *.
      destruct (collectedData (scraper w)); cbn in *; [done |]. by apply (armed_same w).
  - by apply startScraper_armed.
  - by apply deliver_armed.
  - destruct (0 <=? dt); [by apply (armed_same w) | done].
  - destruct (find_timer h (timers w)) as [t|]; [| done].
    destruct (due t <=? now w); [| done].
    destruct (callback t) as [mutations|post]; cbn [run_callback].
    + eapply frame_armed; [apply handleMutations_frame |]. by apply (armed_same w).
    + eapply frame_armed; [apply processPost_frame |]. by apply (armed_same w).
  - by apply (armed_same w).
Qed.

(** X8.  In every reachable world the active flag and the observer go
    together: an active scraper holds exactly one connected observer, the
    one in its [observer] field, and an idle scraper has no observer
    connected and none in its field. *)
Theorem active_iff_observing w :
  reachable w ->
  (isActive (scraper w) = true ->
   ∃ o, observing w = [o] ∧ observer (scraper w) = Some o)
  ∧ (isActive (scraper w) = false ->
     observing w = [] ∧ observer (scraper w) = None).
Proof.
  intros (root & t0 & es & ->).
  assert (Hok : armed_ok (run es (initial_world root t0))).
  { assert (H0 : armed_ok (initial_world root t0)) by (unfold armed_ok; by cbn).
    revert H0. generalize (initial_world root t0) as w0.
    induction es as [|e es IH]; intros w0 Hw0; cbn; [done |]. by apply IH, step_armed. }
  unfold armed_ok in Hok.
  destruct (isActive (scraper (run es (initial_world root t0)))); split; try done.
Qed.

End Armed.

Section Quiet.

Context {B : Browser}.

Lemma debounced_rest mutations w :
  now (debouncedMutationHandler mutations w) = now w
  ∧ handler_calls (debouncedMutationHandler mutations w) = handler_calls w
  ∧ config (scraper (debouncedMutationHandler mutations w)) = config (scraper w).
Proof. unfold debouncedMutationHandler. by destruct (debounceTimer (scraper w)). Qed.

Lemma deliver_rest mutations (obs : list positive) w :
  handler_calls (fold_left (fun w' _ => debouncedMutationHandler mutations w') obs w)
  = handler_calls w
  ∧ config (scraper (fold_left (fun w' _ => debouncedMutationHandler mutations w') obs w))
    = config (scraper w).
Proof.
  revert w. induction obs as [|o obs IH]; intros w; cbn [fold_left]; [done |].
  destruct (IH (debouncedMutationHandler mutations w)) as [-> ->].
  by destruct (debounced_rest mutations w) as (_ & -> & ->).
Qed.

Lemma tick_rest dt w :
  handler_calls (step (Tick dt) w) = handler_calls w
  ∧ config (scraper (step (Tick dt) w)) = config (scraper w)
  ∧ observing (step (Tick dt) w) = observing w.
Proof. cbn. by destruct (0 <=? dt). Qed.

(** A burst handles nothing and leaves the configuration alone. *)
Lemma burst_rest items w :
  handler_calls (run (burst items) w) = handler_calls w
  ∧ config (scraper (run (burst items) w)) = config (scraper w).
Proof.
  revert w. induction items as [|[dt b] items IH]; intros w; [done |].
  change (run (burst ((dt, b) :: items)) w)
    with (run (burst items) (step (Mutations b) (step (Tick dt) w))).
  destruct (IH (step (Mutations b) (step (Tick dt) w))) as [-> ->].
  destruct (deliver_rest b (observing (step (Tick dt) w)) (step (Tick dt) w)) as [H1 H2].
  change (fold_left _ (observing (step (Tick dt) w)) (step (Tick dt) w))
    with (step (Mutations b) (step (Tick dt) w)) in H1, H2.
  rewrite H1, H2. by destruct (tick_rest dt w) as (-> & -> & _).
Qed.

(** Without a pending debounce timer no firing calls [handleMutations]. *)
Lemma fire_without_debounce h w :
  debounce_timers w = [] -> handler_calls (step (Fire h) w) = handler_calls w.
Proof.
  intros Hd. cbn [step]. destruct (find_timer h (timers w)) as [t|] eqn:Hf; [| done].
  destruct (due t <=? now w); [| done].
  destruct (callback t) as [mutations|post] eqn:Hcb; cbn [run_callback].
  - assert (Hin : In t (debounce_timers w)).
    { apply List.filter_In. split; [by eapply find_timer_In |].
      unfold is_debounce. by rewrite Hcb. }
    by rewrite Hd in Hin.
  - by rewrite (f_handler_calls _ _
        (processPost_frame post (set_timers (drop_timer h (timers w)) (next_timer w) w))).
Qed.

(** X10.  Batches reach an armed watcher one after the other before the
    pending timer gets to run, however many and whatever they hold.
    Nothing is handled meanwhile.  Once the page has been quiet for the
    debounce delay and the remembered timer fires, [handleMutations] is
    called exactly once, with the last batch and nothing else; no
    debounce timer is left, and no further firing calls it again. *)
Theorem burst_then_quiet_fires_once items dt b w o :
  reachable w -> observing w = [o] ->
  ∃ h,
    debounceTimer (scraper (run (burst (items ++ [(dt, b)])) w)) = Some h
    ∧ handler_calls (run (burst (items ++ [(dt, b)])) w) = handler_calls w
    ∧ ∀ d, Z.max 0 (debounceDelay (config (scraper w))) <= d ->
        handler_calls (run [Tick d; Fire h] (run (burst (items ++ [(dt, b)])) w))
        = (handler_calls w ++ [b])%list
        ∧ debounce_timers (run [Tick d; Fire h] (run (burst (items ++ [(dt, b)])) w)) = []
        ∧ ∀ h', handler_calls
                  (step (Fire h') (run [Tick d; Fire h] (run (burst (items ++ [(dt, b)])) w)))
                = handler_calls (run [Tick d; Fire h] (run (burst (items ++ [(dt, b)])) w)).
Proof.
  intros Hr Ho.
  pose proof (reachable_watcher_ok w Hr) as Hw.
  destruct (burst_armed items w o Hw Ho) as [Hwb Hob].
  destruct (burst_rest items w) as [Hcb Hcfg].
  set (wb := run (burst items) w) in *.
  set (wt := step (Tick dt) wb).
  assert (Hrt : reachable wt).
  { change wt with (run [Tick dt] (run (burst items) w)). by do 2 apply reachable_run. }
  destruct (tick_rest dt wb) as (Hct & Hcfgt & Hot). fold wt in Hct, Hcfgt, Hot.
  assert (Hw1 : run (burst (items ++ [(dt, b)])) w = debouncedMutationHandler b wt).
  { unfold burst. rewrite flat_map_app. fold (burst items). cbn [flat_map fst snd app].
    rewrite run_app. fold wb. change (run [Tick dt; Mutations b] wb) with (step (Mutations b) wt).
    cbn [step]. rewrite Hot, Hob. done. }
  rewrite Hw1.
  pose proof (reachable_watcher_ok wt Hrt) as Hwt.
  set (w1 := debouncedMutationHandler b wt) in *.
  assert (Hr1 : reachable w1) by (rewrite <- Hw1; by apply reachable_run).
  pose proof (reachable_watcher_ok w1 Hr1) as Hwo1.
  destruct (reachable_timers_unique w1 Hr1) as [Hnd1 _].
  destruct (debounced_rest b wt) as (Hnow & Hcalls & Hconf). fold w1 in Hnow, Hcalls, Hconf.
  pose proof (debounced_timers b wt Hwt) as Hdt. fold w1 in Hdt.
  pose proof (debounced_scraper b wt) as Hsc. fold w1 in Hsc.
  set (t := {| timer_id := next_timer wt;
               due := now wt + Z.max 0 (debounceDelay (config (scraper wt)));
               callback := HandleMutations b |}) in *.
  assert (Hin : In t (timers w1)).
  { assert (Hin : In t (debounce_timers w1)) by (rewrite Hdt; by left).
    by apply List.filter_In in Hin as [Hin _]. }
  pose proof (find_timer_unique (timers w1) t Hnd1 Hin) as Hfind. cbn [timer_id t] in Hfind.
  assert (Hsame : handler_calls w1 = handler_calls w) by (by rewrite Hcalls, Hct, Hcb).
  exists (next_timer wt). split; [by rewrite Hsc |]. split; [done |].
  intros d Hd.
  assert (Hd0 : 0 <= d) by lia.
  assert (Hrun : run [Tick d; Fire (next_timer wt)] w1
                 = handleMutations b
                     (set_timers (drop_timer (next_timer wt) (timers w1)) (next_timer w1)
                        (set_now (now w1 + d) w1))).
  { cbn [run fold_left step]. apply Z.leb_le in Hd0. rewrite Hd0.
    cbn [timers set_now]. rewrite Hfind. cbn [due t now set_now callback run_callback].
    assert (Hdue : (now wt + Z.max 0 (debounceDelay (config (scraper wt))) <=? now w1 + d) = true).
    { apply Z.leb_le. rewrite Hnow, Hcfgt, Hcfg. lia. }
    by rewrite Hdue. }
  rewrite Hrun.
  set (x := set_timers (drop_timer (next_timer wt) (timers w1)) (next_timer w1)
              (set_now (now w1 + d) w1)).
  pose proof (handleMutations_frame b x) as Hf.
  assert (Hnone : debounce_timers (handleMutations b x) = []).
  { rewrite (f_debounce_timers _ _ Hf). unfold debounce_timers. cbn.
    apply drop_remembered. intros t' Ht'. rewrite <- (wo_timer _ Hwo1 t' Ht'). by rewrite Hsc. }
  split; [| split; [done |]].
  - rewrite (f_handler_calls _ _ Hf). unfold x.
    cbn [handler_calls set_handler_calls set_timers set_now]. by rewrite Hsame.
  - intros h'. by apply fire_without_debounce.
Qed.

End Quiet.

(** ** The export, read back *)

Lemma includes_chr_app c a b :
  Js.includes (Js.chr c) (a ++ b)
  = (Js.includes (Js.chr c) a || Js.includes (Js.chr c) b)%bool.
Proof.
  induction a as [|x a IH]; [done |].
  by rewrite append_cons, !includes_chr_cons, IH, orb_assoc.
Qed.

Lemma replaceAll_keeps_out c d rep s :
  Js.includes (Js.chr c) s = false -> Js.includes (Js.chr c) rep = false ->
  Js.includes (Js.chr c) (Js.replaceAll d rep s) = false.
Proof.
  intros Hs Hrep. induction s as [|x s IH]; [done |].
  rewrite includes_chr_cons in Hs. apply orb_false_elim in Hs as [Hx Hs].
  cbn [Js.replaceAll]. destruct (Ascii.eqb x d).
  - by rewrite includes_chr_app, Hrep, IH.
  - by rewrite includes_chr_cons, Hx, IH.
Qed.

Lemma replaceAll_removes c rep s :
  Js.includes (Js.chr c) rep = false ->
  Js.includes (Js.chr c) (Js.replaceAll c rep s) = false.
Proof.
  intros Hrep. induction s as [|x s IH]; [done |].
  cbn [Js.replaceAll]. destruct (Ascii.eqb x c) eqn:Hx.
  - by rewrite includes_chr_app, Hrep, IH.
  - by rewrite includes_chr_cons, Hx, IH.
Qed.

Lemma unquote_body_doubled s :
  unquote_body (Js.replaceAll Js.DQUOTE (String Js.DQUOTE (Js.chr Js.DQUOTE)) s
                ++ Js.chr Js.DQUOTE) = Some s.
Proof.
  unfold Js.chr. induction s as [|c s IH]; [done |].
  cbn [Js.replaceAll]. destruct (Ascii.eqb c Js.DQUOTE) eqn:Hc.
  - apply Ascii.eqb_eq in Hc as ->. rewrite !append_cons, append_nil_l.
    cbn [unquote_body]. rewrite Ascii.eqb_refl. by rewrite IH.
  - rewrite append_cons. cbn [unquote_body]. rewrite Hc. by rewrite IH.
Qed.

(** X12.  Whatever value [escapeCSV] is given, a reader that strips the
    enclosing quotes and undoubles the quotes inside gets back the text
    of the value: the empty text for [null] and [undefined], the value
    printed otherwise. *)
Theorem escapeCSV_roundtrip v : decode_field (escapeCSV v) = Some (field_text v).
Proof.
  assert (Hs : ∀ str, decode_field (escapeCSV (Js.Str str)) = Some str).
  { intros str. rewrite escapeCSV_string.
    destruct (Js.includes "," str || Js.includes (Js.chr Js.DQUOTE) str
              || Js.includes (Js.chr Js.LF) str || Js.includes (Js.chr Js.CR) str)%bool
      eqn:Hinc.
    - unfold Js.chr at 1. rewrite append_cons, append_nil_l.
      cbn [decode_field]. rewrite Ascii.eqb_refl. apply unquote_body_doubled.
    - apply orb_false_elim in Hinc as [Hinc _].
      apply orb_false_elim in Hinc as [Hinc _].
      apply orb_false_elim in Hinc as [_ Hq].
      destruct str as [|c str]; [done |]. rewrite includes_chr_cons in Hq.
      apply orb_false_elim in Hq as [Hc _]. cbn [decode_field]. by rewrite Hc. }
  destruct v as [| |str|n]; [done | done | apply Hs |].
  rewrite escapeCSV_number. apply Hs.
Qed.

Section Exporting.

Context {B : Browser}.

(** X11.  [downloadData] never touches the scraper.  On an empty store it
    saves nothing and answers [false].  Otherwise it answers [true] and
    saves exactly one file: its content is the encoding of the whole
    store, which reads back as one header line and one line per record;
    its name is [posts_export_], a stamp and [.csv], and the stamp holds
    neither a colon nor a dot.  The reply to the message carries that
    answer and the number of records. *)
Theorem export_saves_store_once w :
  scraper (fst (downloadData w)) = scraper w
  ∧ (collectedData (scraper w) = [] -> downloadData w = (w, false))
  ∧ (collectedData (scraper w) ≠ [] ->
       snd (downloadData w) = true
       ∧ record_lines false (convertToCSV (collectedData (scraper w)))
         = S (length (collectedData (scraper w)))
       ∧ ∃ stamp,
           downloads (fst (downloadData w))
           = (downloads w
              ++ [(("posts_export_" ++ stamp ++ ".csv")%string,
                   convertToCSV (collectedData (scraper w)))])%list
           ∧ Js.includes ":" stamp = false ∧ Js.includes "." stamp = false)
  ∧ snd (handleMessage DownloadData w)
    = Some {| success := snd (downloadData w); message := None;
              count := Some (length (collectedData (scraper w))) |}.
Proof.
  split; [apply downloadData_scraper |]. split; [| split].
  - intros Hs. unfold downloadData. by rewrite Hs.
  - intros Hs. unfold downloadData.
    destruct (collectedData (scraper w)) as [|p data] eqn:Hd; [done |].
    split; [done |]. split.
    + unfold convertToCSV. rewrite csv_fold.
      destruct (csv_line_one headers headers_closed) as [H1 H2].
      destruct (rows_lines (p :: data)) as [_ H3].
      by rewrite record_lines_app, H1, H2, H3.
    + eexists. split; [reflexivity |]. split.
      * apply (replaceAll_removes ":"). done.
      * apply (replaceAll_keeps_out "." ":"); [| done]. apply (replaceAll_removes "."). done.
  - pose proof (downloadData_scraper w) as Hs. cbn [handleMessage].
    destruct (downloadData w) as [w1 ok]. cbn in *. unfold data_count. by rewrite Hs.
Qed.

End Exporting.

Lemma columns_skip q a b :
  no_tab a -> record_lines q a = 0%nat ->
  columns q (a ++ b) = columns (in_quotes q a) b.
Proof.
  unfold no_tab. revert q. induction a as [|c a IH]; intros q Ht Hl; [done |].
  rewrite includes_chr_cons in Ht. apply orb_false_elim in Ht as [Hc Ht].
  rewrite append_cons. cbn [columns in_quotes record_lines] in *.
  destruct (Ascii.eqb c Js.DQUOTE); [by apply IH |].
  destruct (Ascii.eqb c Js.LF && negb q); [done |].
  rewrite Hc. cbn. by apply IH.
Qed.

Lemma digits_no_tab d : no_tab (NilEmpty.string_of_uint d).
Proof.
  unfold no_tab. induction d; cbn [NilEmpty.string_of_uint]; [done | ..];
    by rewrite includes_chr_cons, IHd.
Qed.

Lemma join_no_tab sep l : no_tab sep -> Forall no_tab l -> no_tab (Js.join sep l).
Proof.
  unfold no_tab, Js.join. intros Hsep. induction 1 as [|x l Hx Hl IH]; [done |].
  cbn [String.concat]. destruct l as [|y l]; [done |].
  by rewrite !includes_chr_app, Hx, Hsep, IH.
Qed.

Lemma escapeCSV_no_tab v : no_tab (field_text v) -> no_tab (escapeCSV v).
Proof.
  assert (Hs : ∀ str, no_tab str -> no_tab (escapeCSV (Js.Str str))).
  { unfold no_tab. intros str Hstr. rewrite escapeCSV_string.
    destruct (_ || _ || _ || _)%bool; [| done].
    rewrite !includes_chr_app. rewrite replaceAll_keeps_out by done. done. }
  destruct v as [| |str|n]; [done | done | apply Hs |].
  intros Hn. rewrite escapeCSV_number. by apply Hs.
Qed.

Lemma columns_line cells :
  cells ≠ [] -> Forall (fun c => closed_text c ∧ no_tab c) cells ->
  columns false (csv_line cells) = length cells.
Proof.
  intros Hne Hall. induction Hall as [|c cells [[Hq Hl] Ht] Hcells IH]; [done |].
  unfold csv_line, Js.join in *. cbn [String.concat length].
  destruct cells as [|c' cells].
  - rewrite columns_skip by done. by rewrite Hq.
  - rewrite <- !append_assoc. rewrite columns_skip by done. rewrite Hq.
    unfold Js.chr at 1. rewrite append_cons, append_nil_l.
    cbn [columns]. cbn [Ascii.eqb Js.TAB Js.DQUOTE Js.LF Bool.eqb andb negb].
    by rewrite IH.
Qed.

(** X13.  A post whose timestamp, id, text, link URLs and image URLs hold
    no tab is written as a line of exactly seven columns, as many as the
    header has. *)
Theorem tab_free_row_has_seven_columns post :
  tab_free post ->
  columns false (csv_line (csv_row post)) = 7%nat
  ∧ columns false (csv_line (csv_row post)) = columns false (csv_line headers).
Proof.
  intros (Hts & Hid & Htext & Hlinks & Himages).
  assert (H7 : columns false (csv_line (csv_row post)) = 7%nat); [| by rewrite H7].
  rewrite columns_line; [done | done |].
  unfold csv_row. repeat apply Forall_cons_2; try apply Forall_nil_2;
    (split; [apply escapeCSV_closed | apply escapeCSV_no_tab]); cbn [field_text Js.String_of];
    try done.
  - by destruct (id post).
  - apply digits_no_tab.
  - apply join_no_tab; [done |]. apply Forall_fmap. by apply (Forall_impl _ _ _ Hlinks).
  - apply digits_no_tab.
  - apply join_no_tab; [done |]. apply Forall_fmap. by apply (Forall_impl _ _ _ Himages).
Qed.

(** ** The columns, read back *)

Lemma fields_skip q cur a b :
  no_tab a -> record_lines q a = 0%nat ->
  fields_from q cur (a ++ b) = fields_from (in_quotes q a) (cur ++ a) b.
Proof.
  unfold no_tab. revert q cur. induction a as [|c a IH]; intros q cur Ht Hl.
  { by rewrite append_nil_l, append_nil_r. }
  rewrite includes_chr_cons in Ht. apply orb_false_elim in Ht as [Hc Ht].
  rewrite append_cons. cbn [fields_from in_quotes record_lines] in *.
  assert (Hcur : (cur ++ Js.chr c) ++ a = cur ++ String c a)
    by (by rewrite <- append_assoc).
  destruct (Ascii.eqb c Js.DQUOTE); [rewrite IH by done; by rewrite Hcur |].
  destruct (Ascii.eqb c Js.LF && negb q); [done |].
  rewrite Hc. cbn. rewrite IH by done. by rewrite Hcur.
Qed.

(** A line of cells that are closed and hold no tab is split back into
    its cells. *)
Lemma fields_line cells :
  cells ≠ [] -> Forall (fun c => closed_text c ∧ no_tab c) cells ->
  fields (csv_line cells) = cells.
Proof.
  unfold fields. intros Hne Hall.
  induction Hall as [|c cells [[Hq Hl] Ht] Hcells IH]; [done |].
  unfold csv_line, Js.join in *. cbn [String.concat].
  destruct cells as [|c' cells].
  - rewrite fields_skip by done. rewrite Hq, append_nil_l. done.
  - rewrite <- !append_assoc. rewrite fields_skip by done. rewrite Hq, append_nil_l.
    unfold Js.chr at 1. rewrite append_cons, append_nil_l.
    cbn [fields_from]. cbn [Ascii.eqb Js.TAB Js.DQUOTE Js.LF Bool.eqb andb negb].
    by rewrite IH.
Qed.

Lemma decode_escaped_string str : decode_field (escapeCSV (Js.Str str)) = Some str.
Proof.
  rewrite escapeCSV_string.
  destruct (Js.includes "," str || Js.includes (Js.chr Js.DQUOTE) str
            || Js.includes (Js.chr Js.LF) str || Js.includes (Js.chr Js.CR) str)%bool
    eqn:Hinc.
  - unfold Js.chr at 1. rewrite append_cons, append_nil_l.
    cbn [decode_field]. rewrite Ascii.eqb_refl. apply unquote_body_doubled.
  - apply orb_false_elim in Hinc as [Hinc _].
    apply orb_false_elim in Hinc as [Hinc _].
    apply orb_false_elim in Hinc as [_ Hq].
    destruct str as [|c str]; [done |]. rewrite includes_chr_cons in Hq.
    apply orb_false_elim in Hq as [Hc _]. cbn [decode_field]. by rewrite Hc.
Qed.

Lemma csv_row_tab_free post :
  tab_free post -> Forall (fun c => closed_text c ∧ no_tab c) (csv_row post).
Proof.
  intros (Hts & Hid & Htext & Hlinks & Himages).
  unfold csv_row. repeat apply Forall_cons_2; try apply Forall_nil_2;
    (split; [apply escapeCSV_closed | apply escapeCSV_no_tab]); cbn [field_text Js.String_of];
    try done.
  - by destruct (id post).
  - apply digits_no_tab.
  - apply join_no_tab; [done |]. apply Forall_fmap. by apply (Forall_impl _ _ _ Hlinks).
  - apply digits_no_tab.
  - apply join_no_tab; [done |]. apply Forall_fmap. by apply (Forall_impl _ _ _ Himages).
Qed.

(** X22.  The line of a post whose timestamp, id, text, link URLs and
    image URLs hold no tab reads back as what was exported, column by
    column in the order of the header: split at the tabs outside quotes
    and unquoted, it gives the timestamp, the id or the empty text, the
    text, the number of links, the joined link URLs, the number of images
    and the joined image URLs. *)
Theorem tab_free_row_reads_back post :
  tab_free post ->
  map decode_field (fields (csv_line (csv_row post))) = map Some (exported_texts post).
Proof.
  intros Hfree. rewrite fields_line; [| done | by apply csv_row_tab_free].
  unfold csv_row, exported_texts. cbn [map].
  rewrite !escapeCSV_number, !decode_escaped_string.
  destruct (id post) as [i|]; cbn [Js.of_option default]; [| done].
  by rewrite decode_escaped_string.
Qed.

(** C7.  One record whose text is [A<TAB>B].  The header splits into its
    seven names.  The encoding is the header line and one data line, but
    the data line splits into eight fields: the text is cut at its tab,
    and under the header of the number of links the reader finds [B].  The
    columns of the data line are not the seven of the header in their
    order. *)
Theorem tab_in_text_shifts_columns :
  fields (csv_line headers) = headers
  ∧ convertToCSV [Cases.tabbed] = csv_line headers ++ csv_line (csv_row Cases.tabbed)
  ∧ record_lines false (convertToCSV [Cases.tabbed]) = 2%nat
  ∧ fields (csv_line (csv_row Cases.tabbed)) = ["t"; "i"; "A"; "B"; "1"; "u"; "0"; EmptyString]
  ∧ map decode_field (fields (csv_line (csv_row Cases.tabbed)))
    ≠ map Some (exported_texts Cases.tabbed)
  ∧ nth 3 headers EmptyString = "Links Count"
  ∧ nth 3 (fields (csv_line (csv_row Cases.tabbed))) EmptyString = "B"
  ∧ nth 3 (exported_texts Cases.tabbed) EmptyString = "1".
Proof.
  split; [vm_compute; reflexivity |]. split; [vm_compute; reflexivity |].
  split; [vm_compute; reflexivity |]. split; [vm_compute; reflexivity |].
  split; [vm_compute; discriminate |]. split; [vm_compute; reflexivity |].
  split; vm_compute; reflexivity.
Qed.

(** ** The background service *)

Lemma toSet_union (storage : gmap string Background.value) :
  filter (fun kv => Background.storage_get (dom Background.getDefaultValues) storage !! kv.1 = None)
         Background.getDefaultValues ∪ storage
  = storage ∪ Background.getDefaultValues.
Proof.
  apply map_eq. intros k. rewrite !lookup_union, map_lookup_filter.
  unfold Background.storage_get.
  destruct (storage !! k) as [x|] eqn:Hk.
  - destruct (Background.getDefaultValues !! k) as [v|] eqn:Hv; cbn; [| done].
    rewrite option_guard_False; [done |]. cbn.
    rewrite (map_lookup_filter_Some_2 _ _ _ x); [done | done |].
    cbn. apply elem_of_dom. by eexists.
  - destruct (Background.getDefaultValues !! k) as [v|] eqn:Hv; cbn; [| done].
    rewrite option_guard_True; [done |]. cbn.
    apply map_lookup_filter_None_2. by left.
Qed.

(** X18.  [initializeStorage] completes the storage with the defaults and
    overwrites nothing: the result is the stored entries, plus the default
    of every key that was missing.  Run again, it changes nothing. *)
Theorem initializeStorage_fills_missing (storage : gmap string Background.value) :
  Background.initializeStorage storage = storage ∪ Background.getDefaultValues
  ∧ (∀ k v, storage !! k = Some v -> Background.initializeStorage storage !! k = Some v)
  ∧ (∀ k v, storage !! k = None -> Background.getDefaultValues !! k = Some v ->
            Background.initializeStorage storage !! k = Some v)
  ∧ Background.initializeStorage (Background.initializeStorage storage)
    = Background.initializeStorage storage.
Proof.
  assert (Heq : ∀ st : gmap string Background.value,
            Background.initializeStorage st = st ∪ Background.getDefaultValues).
  { intros st. unfold Background.initializeStorage, Background.storage_set.
    pose proof (toSet_union st) as Hu. cbv zeta.
    destruct (0 <? size _)%nat eqn:Hsize; [done |].
    apply Nat.ltb_ge in Hsize.
    assert (Hempty : filter
              (fun kv => Background.storage_get (dom Background.getDefaultValues) st !! kv.1 = None)
              Background.getDefaultValues = ∅) by (apply map_size_empty_inv; lia).
    rewrite Hempty in Hu. by rewrite (left_id_L ∅ (∪)) in Hu. }
  split; [apply Heq |]. split; [| split].
  - intros k v Hk. rewrite Heq. by apply lookup_union_Some_l.
  - intros k v Hk Hv. rewrite Heq, lookup_union_r; done.
  - rewrite !Heq. by rewrite <- (assoc_L (∪)), (idemp_L (∪)).
Qed.

Section Signals.

Context {B : Browser}.

(** X17.  The scraper has no case for the two messages the background
    service sends, [clearCollectedData] and [checkStatus]: the world is
    left as it was and the reply is the failure [Undefined action].  So
    [cleanupStorage] resets the storage to the defaults, whatever it held,
    and leaves every tab, its collected records included, untouched. *)
Theorem cleanup_leaves_tabs_alone (storage : gmap string Background.value) tabs :
  cleanupStorage storage tabs = (Background.getDefaultValues, tabs)
  ∧ (∀ sel w, handleMessage (dispatch Background.CLEAR_COLLECTED sel) w
              = (w, Some UNDEFINED_ACTION))
  ∧ (∀ sel w, handleMessage (dispatch Background.CHECK_STATUS sel) w
              = (w, Some UNDEFINED_ACTION)).
Proof.
  split; [| split; intros sel w; reflexivity].
  unfold cleanupStorage, Background.storage_set. rewrite (right_id_L ∅ (∪)). f_equal.
  induction tabs as [|w tabs IH]; [done |]. cbn [map]. by rewrite IH.
Qed.

End Signals.

(** ** The extension as it is wired *)

Section Wired.

Context {B : Browser}.

Hypothesis empty_selector_invalid : selector_valid EmptyString = false.

Lemma processPost_unselected post w : unselected w -> unselected (processPost post w).
Proof.
  intros [Hsel Hstore].
  assert (Hx : ∀ w0, contentSelector (config (scraper w0)) = EmptyString ->
                     extractPostData post w0 = None).
  { intros w0 Hw0. unfold extractPostData, querySelector, querySelectorAll.
    rewrite Hw0, empty_selector_invalid. reflexivity. }
  processPost_cases post w; try (by split); (rewrite Hx in Hextract; [done | by cbn]).
Qed.

Lemma processPosts_unselected posts w : unselected w -> unselected (processPosts posts w).
Proof.
  revert w. induction posts as [|p posts IH]; intros w Hw; cbn; [done |].
  by apply IH, processPost_unselected.
Qed.

Lemma startScraper_unselected w : unselected w -> unselected (startScraper w).
Proof.
  intros Hw. rewrite startScraper_arm. destruct (isActive (scraper w)); [done |].
  change (unselected (arm ?x)) with (unselected x).
  unfold processExistingPosts. destruct (document_querySelectorAll _ _); [| done].
  by apply processPosts_unselected.
Qed.

Lemma step_unselected e w :
  carries_selector e = false -> unselected w -> unselected (step e w).
Proof.
  intros He Hw. destruct e as [request| |batch|dt|h|root]; cbn [step].
  - destruct request as [[sel|]| | | | |]; cbn [handleMessage fst]; try done.
    + unfold stopScraper. destruct (isActive (scraper w)); cbn; [| done].
      destruct (observer (scraper w)); cbn; by destruct (debounceTimer (scraper w)).
    + destruct Hw as [Hsel Hstore]. unfold downloadData. by rewrite Hstore.
    + by destruct Hw.
  - by apply startScraper_unselected.
  - destruct (deliver_rest batch (observing w) w) as [_ Hc].
    unfold unselected. by rewrite Hc, deliver_store.
  - by destruct (0 <=? dt).
  - destruct (find_timer h (timers w)) as [t|]; [| done].
    destruct (due t <=? now w); [| done].
    destruct (callback t) as [mutations|post]; cbn [run_callback].
    + unfold handleMutations. destruct (selector_valid (containerSelector _)); [| exact Hw].
      apply processPosts_unselected. exact Hw.
    + apply processPost_unselected. exact Hw.
  - exact Hw.
Qed.

(** X19.  The messages the widget and the background service send carry no
    selector.  With a browser that rejects the empty selector, as long as
    no event hands the scraper a content selector, the content selector
    stays the empty one of the constructor, every extraction throws, and
    the store stays empty, whatever the page shows and however often the
    scraper is started, resumed or stopped. *)
Theorem nothing_collected_without_selector root t0 es :
  Forall (fun e => carries_selector e = false) es ->
  contentSelector (config (scraper (run es (initial_world root t0)))) = EmptyString
  ∧ collectedData (scraper (run es (initial_world root t0))) = []
  ∧ Forall (fun r => carries_selector (Message r) = false)
      [Widget.toggle_message true; Widget.toggle_message false;
       Widget.download_message; Widget.count_message; Widget.reset_message;
       dispatch Background.CLEAR_COLLECTED None; dispatch Background.CHECK_STATUS None].
Proof.
  intros Hes.
  assert (Hu : unselected (run es (initial_world root t0))).
  { assert (H0 : unselected (initial_world root t0)) by done.
    revert H0. generalize (initial_world root t0) as w.
    induction Hes as [|e es He Hes IH]; intros w Hw; cbn; [done |].
    by apply IH, step_unselected. }
  destruct Hu as [H1 H2]. split; [done |]. split; [done |].
  repeat constructor.
Qed.

End Wired.

(** ** Runs of the further properties *)

Section MoreRuns.

Import Sample Cases.

Lemma started_reachable : reachable (B := engine) started.
Proof. exists body, 0, [Message (StartScraper (Some "txt"))]. vm_compute. reflexivity. Qed.

Lemma retrying_reachable : reachable (B := engine) retrying.
Proof. apply (reachable_run (B := engine)), started_reachable. Qed.

Lemma collected_reachable : reachable (B := engine) collected.
Proof. apply (reachable_run (B := engine)), started_reachable. Qed.

Lemma waiting_reachable : reachable (B := engine) waiting.
Proof. apply (reachable_run (B := engine)), started_reachable. Qed.

Lemma retry_never_extracts_witness :
  reachable (B := engine) retrying
  ∧ find_timer 2 (timers retrying)
    = Some {| timer_id := 2; due := 1100; callback := RetryPost broken |}
  ∧ node_ref broken ∈ processed (scraper retrying).
Proof.
  assert (H1 : find_timer 2 (timers retrying)
               = Some {| timer_id := 2; due := 1100; callback := RetryPost broken |})
    by (vm_compute; reflexivity).
  split; [exact retrying_reachable |]. split; [exact H1 |].
  exact (proj1 (retry_never_extracts (B := engine) retrying 2 _ broken
                  retrying_reachable H1 eq_refl)).
Defined.

Lemma retry_budget_kept_witness :
  reachable (B := engine) retrying ∧ budget_ok retrying.
Proof.
  split; [exact retrying_reachable |].
  exact (proj1 (retry_budget_kept (B := engine) retrying retrying_reachable)).
Defined.

Lemma store_only_grows_witness :
  Fire 1 ≠ Message CleanData
  ∧ collectedData (scraper (step (B := engine) (Fire 1) waiting)) = [recordA]
  ∧ ∃ new, collectedData (scraper (step (B := engine) (Fire 1) waiting))
           = (collectedData (scraper waiting) ++ new)%list.
Proof.
  assert (H1 : Fire 1 ≠ Message CleanData) by discriminate.
  split; [exact H1 |]. split; [vm_compute; reflexivity |].
  exact (store_only_grows (B := engine) (Fire 1) waiting H1).
Defined.

Lemma store_never_exceeds_seen_witness :
  reachable (B := engine) collected
  ∧ (length (collectedData (scraper collected)) ≤ size (processed (scraper collected)))%nat.
Proof.
  split; [exact collected_reachable |].
  exact (store_never_exceeds_seen (B := engine) collected collected_reachable).
Defined.

Lemma borders_follow_processed_witness :
  reachable (B := engine) collected
  ∧ borders collected !! 50%positive = Some GREEN
  ∧ 50%positive ∈ processed (scraper collected).
Proof.
  assert (H1 : borders collected !! 50%positive = Some GREEN) by (vm_compute; reflexivity).
  split; [exact collected_reachable |]. split; [exact H1 |].
  exact (proj1 (proj1 (borders_follow_processed (B := engine) collected collected_reachable)
                  50%positive GREEN H1)).
Defined.

Lemma active_iff_observing_witness :
  reachable (B := engine) started
  ∧ (isActive (scraper started) = true ->
     ∃ o, observing started = [o] ∧ observer (scraper started) = Some o).
Proof.
  split; [exact started_reachable |].
  exact (proj1 (active_iff_observing (B := engine) started started_reachable)).
Defined.

Lemma one_debounce_timer_at_most_witness :
  reachable (B := engine) waiting
  ∧ length (debounce_timers waiting) = 1%nat
  ∧ (length (debounce_timers waiting) ≤ 1)%nat.
Proof.
  split; [exact waiting_reachable |]. split; [vm_compute; reflexivity |].
  exact (proj1 (one_debounce_timer_at_most (B := engine) waiting waiting_reachable)).
Defined.

Lemma burst_then_quiet_fires_once_witness :
  reachable (B := engine) started
  ∧ observing started = [1%positive]
  ∧ handler_calls
      (run (B := engine) (burst ([(0, batch [postA])] ++ [(50, batch [postB])])) started)
    = handler_calls started.
Proof.
  assert (H1 : observing started = [1%positive]) by (vm_compute; reflexivity).
  split; [exact started_reachable |]. split; [exact H1 |].
  destruct (burst_then_quiet_fires_once (B := engine) [(0, batch [postA])] 50 (batch [postB])
              started 1 started_reachable H1) as (h & _ & H2 & _).
  exact H2.
Defined.

Lemma export_saves_store_once_witness :
  collectedData (scraper collected) ≠ []
  ∧ snd (downloadData (B := engine) collected) = true.
Proof.
  assert (H1 : collectedData (scraper collected) ≠ []) by (vm_compute; discriminate).
  split; [exact H1 |].
  exact (proj1 (proj1 (proj2 (proj2 (export_saves_store_once (B := engine) collected))) H1)).
Defined.

Lemma tab_free_row_has_seven_columns_witness :
  tab_free plain ∧ columns false (csv_line (csv_row plain)) = 7%nat.
Proof.
  assert (H1 : tab_free plain).
  { unfold tab_free, no_tab. split; [vm_compute; reflexivity |].
    split; [vm_compute; reflexivity |]. split; [vm_compute; reflexivity |].
    split; [| apply Forall_nil_2]. apply Forall_singleton. vm_compute. reflexivity. }
  split; [exact H1 |]. exact (proj1 (tab_free_row_has_seven_columns plain H1)).
Defined.



Lemma records_well_formed_witness :
  reachable (B := engine) collected
  ∧ In recordA (collectedData (scraper collected))
  ∧ id recordA ≠ Some EmptyString.
Proof.
  assert (H1 : In recordA (collectedData (scraper collected)))
    by (vm_compute; left; reflexivity).
  split; [exact collected_reachable |]. split; [exact H1 |].
  exact (proj1 (records_well_formed (B := engine) collected recordA collected_reachable H1)).
Defined.

Lemma initializeStorage_fills_missing_witness :
  (<["dataCount" := Background.VNum 5]> ∅ : gmap string Background.value) !! "dataCount"
  = Some (Background.VNum 5)
  ∧ Background.initializeStorage (<["dataCount" := Background.VNum 5]> ∅) !! "dataCount"
    = Some (Background.VNum 5).
Proof.
  assert (H1 : (<["dataCount" := Background.VNum 5]> ∅ : gmap string Background.value)
               !! "dataCount" = Some (Background.VNum 5)) by apply lookup_insert_eq.
  split; [exact H1 |].
  exact (proj1 (proj2 (initializeStorage_fills_missing (<["dataCount" := Background.VNum 5]> ∅)))
           "dataCount" (Background.VNum 5) H1).
Defined.

Lemma nothing_collected_without_selector_witness :
  selector_valid (Browser := engine) EmptyString = false
  ∧ collectedData
      (scraper (run (B := engine)
                  [Message (Widget.toggle_message false); Resume;
                   Mutations (batch [postA]); Tick 100; Fire 1; Fire 2]
                  (initial_world (Element 1 "body" [] [postB]) 0))) = [].
Proof.
  assert (H1 : selector_valid (Browser := engine) EmptyString = false) by reflexivity.
  assert (H2 : Forall (fun e => carries_selector e = false)
                 [Message (Widget.toggle_message false); Resume;
                  Mutations (batch [postA]); Tick 100; Fire 1%positive; Fire 2%positive])
    by (repeat constructor).
  split; [exact H1 |].
  exact (proj1 (proj2 (nothing_collected_without_selector (B := engine) H1
                         (Element 1 "body" [] [postB]) 0 _ H2))).
Defined.

Lemma processPost_keeps_ids_unique_witness :
  ids_tracked started
  ∧ Js.truthy (reflected "id" postA) = true
  ∧ ids_tracked (processPost (B := engine) postA started).
Proof.
  assert (H1 : ids_tracked started).
  { assert (Hs : collectedData (scraper started) = []) by (vm_compute; reflexivity).
    unfold ids_tracked, unique_ids. rewrite Hs. split.
    - intros i j p q k Hi. by rewrite lookup_nil in Hi.
    - intros p k []. }
  assert (H2 : Js.truthy (reflected "id" postA) = true) by reflexivity.
  split; [exact H1 |]. split; [exact H2 |].
  exact (processPost_keeps_ids_unique (B := engine) postA started H1 (or_introl H2)).
Defined.

Lemma later_delivery_changes_nothing_witness :
  node_ref (post 50 [("id", "renamed")] "alpha") = node_ref postA
  ∧ dedup postA (scraper started) ≠ SeenId
  ∧ processPost (B := engine) (post 50 [("id", "renamed")] "alpha")
      (run (B := engine) [Message CleanData] (processPost (B := engine) postA started))
    = run (B := engine) [Message CleanData] (processPost (B := engine) postA started).
Proof.
  assert (H1 : node_ref (post 50 [("id", "renamed")] "alpha") = node_ref postA)
    by reflexivity.
  assert (H2 : dedup postA (scraper started) ≠ SeenId)
    by (vm_compute; discriminate).
  split; [exact H1 |]. split; [exact H2 |].
  exact (later_delivery_changes_nothing (B := engine) postA _ started
           [Message CleanData] H1 (or_introl H2)).
Defined.

Lemma tab_free_row_reads_back_witness :
  tab_free plain
  ∧ map decode_field (fields (csv_line (csv_row plain))) = map Some (exported_texts plain).
Proof.
  assert (H1 : tab_free plain).
  { unfold tab_free, no_tab. split; [vm_compute; reflexivity |].
    split; [vm_compute; reflexivity |]. split; [vm_compute; reflexivity |].
    split; [| apply Forall_nil_2]. apply Forall_singleton. vm_compute. reflexivity. }
  split; [exact H1 |]. exact (tab_free_row_reads_back plain H1).
Defined.

End MoreRuns.
